(** * Swarm coordination hub: the agent registry and its audit log

    A shallow embedding of [app.py]: the in-memory agent registry
    ([AGENTS]), the SQLite audit table ([events]) and the Flask handlers
    that drive them, followed by the properties of the specification.

    Modelling conventions.
    - A value that arrives in a request body is a [json] value.  JSON
      numbers are the integers (Python [int]); a Python [str] is a
      [string] whose characters are the code points below 256.
    - A Python [float] only occurs as a clock reading of [time.time()]
      and as the rounded difference of two of them; it is idealised as
      an exact rational.
    - [time.time()] and [datetime.utcnow().isoformat()] are inputs of the
      functions that read them ([now] and [iso]).
    - A handler runs from start to end before the next one starts;
      [STATE_LOCK] is therefore not represented.
    - A Python exception is the [Raised] outcome of the state monad [M].
    - SQLite's rowid ceiling of 2^63-1 and failures of the disk are not
      represented. *)

From Stdlib Require Import ZArith QArith Qround Qabs Lqa Lia List Ascii String.
From Stdlib Require Import DecimalString DecimalPos DecimalZ Sorting.Sorted Permutation.
From Stdlib Require Strings.Byte.
From stdpp Require Import base option gmap strings list sorting fin_maps.

Import ListNotations.
Local Open Scope Z_scope.
Local Open Scope string_scope.
Local Open Scope list_scope.

(** ** Request data *)

#[local] Set Warnings "-register-all".

Inductive json : Type :=
  | JNull
  | JBool (b : bool)
  | JNum (n : Z)
  | JStr (s : string)
  | JArr (items : list json)
  | JObj (fields : list (string * json)).

(** Python truth value: [bool(x)].  [None], [False], [0], the empty
    string, the empty list and the empty dict are falsy. *)
Definition truthy (v : json) : bool :=
  match v with
  | JNull => false
  | JBool b => b
  | JNum n => negb (n =? 0)%Z
  | JStr s => negb (String.eqb s "")
  | JArr l => match l with [] => false | _ => true end
  | JObj l => match l with [] => false | _ => true end
  end.

(** [d.get(k)] on a dict given by its items; a dict has each key once. *)
Fixpoint dict_lookup (k : string) (d : list (string * json)) : option json :=
  match d with
  | [] => None
  | (k', v) :: d' => if String.eqb k k' then Some v else dict_lookup k d'
  end.

(** The dict without key [k]. *)
Fixpoint dict_remove (k : string) (d : list (string * json)) : list (string * json) :=
  match d with
  | [] => []
  | (k', v) :: d' =>
      if String.eqb k k' then dict_remove k d' else (k', v) :: dict_remove k d'
  end.

(** ** Dictionary keys

    [AGENTS] is a Python dict keyed by whatever [agent_id] is.  A key is
    compared with [==] and must be hashable: [True == 1] and
    [False == 0] are the same key, lists and dicts raise [TypeError]. *)

Inductive key : Type :=
  | KNone
  | KInt (n : Z)
  | KStr (s : string).

Global Instance key_eq_dec : EqDecision key.
Proof. solve_decision. Defined.

Definition key_to_sum (k : key) : unit + (Z + string) :=
  match k with
  | KNone => inl tt
  | KInt n => inr (inl n)
  | KStr s => inr (inr s)
  end.

Definition key_of_sum (x : unit + (Z + string)) : key :=
  match x with
  | inl _ => KNone
  | inr (inl n) => KInt n
  | inr (inr s) => KStr s
  end.

Global Instance key_countable : Countable key.
Proof.
  apply (inj_countable' key_to_sum key_of_sum).
  intros []; reflexivity.
Defined.

Definition hash_key (v : json) : option key :=
  match v with
  | JNull => Some KNone
  | JBool b => Some (KInt (if b then 1 else 0))
  | JNum n => Some (KInt n)
  | JStr s => Some (KStr s)
  | JArr _ => None
  | JObj _ => None
  end.

(** ** Values held in an agent's dict *)

Inductive pyval : Type :=
  | PJson (v : json)
  | PFloat (x : Q).

Abbreviation dict := (gmap string pyval).

(** ** The audit table

    [CREATE TABLE events (id INTEGER PRIMARY KEY AUTOINCREMENT, ts TEXT,
    type TEXT, payload TEXT, operator TEXT, hash TEXT)]. *)

Record row : Type := mkRow {
  r_id : Z;
  r_ts : string;
  r_type : string;
  r_payload : string;
  r_operator : string;
  r_hash : string
}.

(** The table with the counter SQLite keeps for AUTOINCREMENT in
    [sqlite_sequence]. *)
Record table : Type := mkTable {
  rows : list row;
  last_rowid : Z
}.

Definition empty_table : table := {| rows := []; last_rowid := 0 |}.

Definition max_rowid (l : list row) : Z :=
  fold_right (fun r m => Z.max (r_id r) m) 0 l.

(** [INSERT INTO events(ts,type,payload,operator,hash) VALUES(?,?,?,?,?)]:
    the new id is one more than the largest id the table has ever held. *)
Definition next_rowid (t : table) : Z := Z.max (last_rowid t) (max_rowid (rows t)) + 1.

Definition insert_row (t : table) (ts ty payload operator h : string) : table :=
  let i := next_rowid t in
  {| rows := rows t ++ [mkRow i ts ty payload operator h]; last_rowid := i |}.

(** ** Program state *)

Record state : Type := mkState {
  AGENTS : gmap key dict;
  DB : option table      (* [None]: swarm_audit.db has no [events] table *)
}.

Definition fresh : state := {| AGENTS := ∅; DB := None |}.

Inductive exn : Type :=
  | TypeError
  | KeyError
  | AttributeError
  | OperationalError.

Inductive outcome (A : Type) : Type :=
  | Returned (a : A)
  | Raised (e : exn).
Arguments Returned {A} a.
Arguments Raised {A} e.

Definition M (A : Type) : Type := state -> outcome A * state.

Definition ret {A} (a : A) : M A := fun st => (Returned a, st).
Definition raise {A} (e : exn) : M A := fun st => (Raised e, st).
Definition bind {A B} (m : M A) (f : A -> M B) : M B :=
  fun st =>
    match m st with
    | (Returned a, st') => f a st'
    | (Raised e, st') => (Raised e, st')
    end.
Definition get_agents : M (gmap key dict) := fun st => (Returned (AGENTS st), st).
Definition set_agents (a : gmap key dict) : M unit :=
  fun st => (Returned tt, {| AGENTS := a; DB := DB st |}).
Definition get_db : M (option table) := fun st => (Returned (DB st), st).
Definition set_db (t : table) : M unit :=
  fun st => (Returned tt, {| AGENTS := AGENTS st; DB := Some t |}).

Global Instance M_ret : MRet M := @ret.
Global Instance M_bind : MBind M := fun A B f m => bind m f.

(** The key of a subscript or of an [in] test. *)
Definition as_key (v : json) : M key :=
  match hash_key v with
  | Some k => ret k
  | None => raise TypeError
  end.

(** ** SHA-256 ([hashlib.sha256]), on 32-bit words held in [Z] *)

Module SHA256.

Local Open Scope Z_scope.

Definition mask32 : Z := 0xffffffff.
Definition add32 (x y : Z) : Z := (x + y) mod 2 ^ 32.
Definition rotr (n x : Z) : Z :=
  Z.lor (Z.shiftr x n) (Z.land (Z.shiftl x (32 - n)) mask32).
Definition not32 (x : Z) : Z := Z.lxor x mask32.

Definition Ch (x y z : Z) : Z := Z.lxor (Z.land x y) (Z.land (not32 x) z).
Definition Maj (x y z : Z) : Z :=
  Z.lxor (Z.lxor (Z.land x y) (Z.land x z)) (Z.land y z).
Definition bsig0 (x : Z) : Z := Z.lxor (Z.lxor (rotr 2 x) (rotr 13 x)) (rotr 22 x).
Definition bsig1 (x : Z) : Z := Z.lxor (Z.lxor (rotr 6 x) (rotr 11 x)) (rotr 25 x).
Definition ssig0 (x : Z) : Z := Z.lxor (Z.lxor (rotr 7 x) (rotr 18 x)) (Z.shiftr x 3).
Definition ssig1 (x : Z) : Z := Z.lxor (Z.lxor (rotr 17 x) (rotr 19 x)) (Z.shiftr x 10).

(** Hexadecimal text to words, eight digits a word. *)
Definition hex_value (c : ascii) : Z :=
  let n := Z.of_N (N_of_ascii c) in
  if n <? 58 then n - 48 else n - 87.

Fixpoint hex_words (acc : Z) (k : nat) (s : string) : list Z :=
  match s with
  | EmptyString => []
  | String c s' =>
      let acc' := 16 * acc + hex_value c in
      match k with
      | O => acc' :: hex_words 0 7 s'
      | S k' => hex_words acc' k' s'
      end
  end.

(** The round constants: the fractional parts of the cube roots of the
    first 64 primes. *)
Definition K : list Z :=
  Eval vm_compute in
    hex_words 0 7
      ("428a2f9871374491b5c0fbcfe9b5dba53956c25b59f111f1923f82a4ab1c5ed5"
       +:+ "d807aa9812835b01243185be550c7dc372be5d7480deb1fe9bdc06a7c19bf174"
       +:+ "e49b69c1efbe47860fc19dc6240ca1cc2de92c6f4a7484aa5cb0a9dc76f988da"
       +:+ "983e5152a831c66db00327c8bf597fc7c6e00bf3d5a7914706ca635114292967"
       +:+ "27b70a852e1b21384d2c6dfc53380d13650a7354766a0abb81c2c92e92722c85"
       +:+ "a2bfe8a1a81a664bc24b8b70c76c51a3d192e819d6990624f40e3585106aa070"
       +:+ "19a4c1161e376c082748774c34b0bcb5391c0cb34ed8aa4a5b9cca4f682e6ff3"
       +:+ "748f82ee78a5636f84c878148cc7020890befffaa4506cebbef9a3f7c67178f2").

(** The initial hash value: the fractional parts of the square roots of
    the first 8 primes. *)
Definition H0 : list Z :=
  Eval vm_compute in
    hex_words 0 7
      ("6a09e667bb67ae853c6ef372a54ff53a510e527f9b05688c1f83d9ab5be0cd19").

(** Padding: a 1 bit, zeros up to 56 modulo 64 bytes, the bit length on
    eight bytes, big-endian. *)
Definition be_bytes (n : nat) (x : Z) : list Z :=
  map (fun i => Z.land (Z.shiftr x (8 * Z.of_nat i)) 255) (rev (seq 0 n)).

Definition pad (msg : list Z) : list Z :=
  let len := Z.of_nat (length msg) in
  let zeros := Z.to_nat ((55 - len) mod 64) in
  msg ++ [128] ++ repeat 0 zeros ++ be_bytes 8 (8 * len).

Definition word_of (b3 b2 b1 b0 : Z) : Z :=
  Z.lor (Z.lor (Z.shiftl b3 24) (Z.shiftl b2 16)) (Z.lor (Z.shiftl b1 8) b0).

Fixpoint words_of (n : nat) (bs : list Z) : list Z :=
  match n, bs with
  | S n', b3 :: b2 :: b1 :: b0 :: bs' => word_of b3 b2 b1 b0 :: words_of n' bs'
  | _, _ => []
  end.

(** One round: the sixteen-word window [w] slides by one word. *)
Definition round (acc : list Z * list Z) (k : Z) : list Z * list Z :=
  match acc with
  | ([a; b; c; d; e; f; g; h], w) =>
      let w0 := nth 0 w 0 in
      let t1 := add32 (add32 (add32 (add32 h (bsig1 e)) (Ch e f g)) k) w0 in
      let t2 := add32 (bsig0 a) (Maj a b c) in
      let wn := add32 (add32 (add32 (ssig1 (nth 14 w 0)) (nth 9 w 0))
                             (ssig0 (nth 1 w 0))) w0 in
      ([add32 t1 t2; a; b; c; add32 d t1; e; f; g], tl w ++ [wn])
  | _ => acc
  end.

Definition compress (hs : list Z) (block : list Z) : list Z :=
  let out := fst (fold_left round K (hs, block)) in
  map (fun p => add32 (fst p) (snd p)) (combine hs out).

Fixpoint blocks (n : nat) (bs : list Z) (hs : list Z) : list Z :=
  match n with
  | O => hs
  | S n' => blocks n' (skipn 64 bs) (compress hs (words_of 16 (firstn 64 bs)))
  end.

Definition digest_words (msg : list Z) : list Z :=
  let p := pad msg in
  blocks (length p / 64) p H0.

Definition hex_digit (d : Z) : ascii :=
  if d <? 10 then ascii_of_nat (48 + Z.to_nat d) else ascii_of_nat (87 + Z.to_nat d).

Definition hex_of (n : nat) (x : Z) : list ascii :=
  map (fun i => hex_digit (Z.land (Z.shiftr x (4 * Z.of_nat i)) 15)) (rev (seq 0 n)).

(** [hashlib.sha256(msg).hexdigest()] *)
Definition hexdigest (msg : list Byte.byte) : string :=
  string_of_list_ascii
    (concat (map (hex_of 8)
                 (digest_words (map (fun b => Z.of_N (Byte.to_N b)) msg)))).

End SHA256.

(** [s.encode()]: UTF-8 of a string of code points below 256. *)
Definition encode_char (c : ascii) : list Byte.byte :=
  let n := N_of_ascii c in
  if (n <? 128)%N then [byte_of_ascii c]
  else [byte_of_ascii (ascii_of_N (192 + n / 64));
        byte_of_ascii (ascii_of_N (128 + n mod 64))].

Definition encode (s : string) : list Byte.byte :=
  concat (map encode_char (list_ascii_of_string s)).

(** ** [json.dumps]

    Default separators ([", "] and [": "]) and [ensure_ascii=True]: a
    character outside the printable ASCII range is written as a
    [\uXXXX] escape. *)

Definition dquote : ascii := ascii_of_nat 34.
Definition backslash : ascii := ascii_of_nat 92.

Definition escape_char (c : ascii) : list ascii :=
  let n := N_of_ascii c in
  if (n =? 34)%N then [backslash; dquote]
  else if (n =? 92)%N then [backslash; backslash]
  else if (n =? 10)%N then [backslash; "n"%char]
  else if (n =? 13)%N then [backslash; "r"%char]
  else if (n =? 9)%N then [backslash; "t"%char]
  else if (n =? 8)%N then [backslash; "b"%char]
  else if (n =? 12)%N then [backslash; "f"%char]
  else if ((32 <=? n) && (n <=? 126))%N then [c]
  else backslash :: "u"%char :: SHA256.hex_of 4 (Z.of_N n).

Definition quote (s : string) : list ascii :=
  dquote :: flat_map escape_char (list_ascii_of_string s) ++ [dquote].

(** [str(n)] of a Python [int]. *)
Definition int_str (n : Z) : list ascii :=
  list_ascii_of_string (NilEmpty.string_of_int (Z.to_int n)).

Fixpoint join_with (sep : list ascii) (parts : list (list ascii)) : list ascii :=
  match parts with
  | [] => []
  | [p] => p
  | p :: ps => p ++ sep ++ join_with sep ps
  end.

(** [sorted(dct.items())]: the keys of a dict are distinct, so only
    the keys are compared; strings compare by code point. *)
Fixpoint insert_item {A} (x : string * A) (l : list (string * A)) : list (string * A) :=
  match l with
  | [] => [x]
  | y :: l' => if String.leb (fst x) (fst y) then x :: l else y :: insert_item x l'
  end.

Definition sort_items {A} (l : list (string * A)) : list (string * A) :=
  fold_right insert_item [] l.

Definition comma_sp : list ascii := list_ascii_of_string ", ".
Definition colon_sp : list ascii := list_ascii_of_string ": ".

(** The items of a dict are rendered and then sorted; the encoder sorts
    them first, which is the same since sorting looks at keys only. *)
Fixpoint dumps (sort_keys : bool) (v : json) : list ascii :=
  match v with
  | JNull => list_ascii_of_string "null"
  | JBool true => list_ascii_of_string "true"
  | JBool false => list_ascii_of_string "false"
  | JNum n => int_str n
  | JStr s => quote s
  | JArr l =>
      "["%char :: join_with comma_sp (map (dumps sort_keys) l) ++ ["]"%char]
  | JObj d =>
      let items := map (fun kv => (fst kv, dumps sort_keys (snd kv))) d in
      let items := if sort_keys then sort_items items else items in
      "{"%char
        :: join_with comma_sp (map (fun kt => quote (fst kt) ++ colon_sp ++ snd kt) items)
        ++ ["}"%char]
  end.

Definition json_dumps (sort_keys : bool) (v : json) : string :=
  string_of_list_ascii (dumps sort_keys v).

(** ** Audit *)

Definition init_db : M unit :=
  db ← get_db;
  match db with
  | None => set_db empty_table       (* CREATE TABLE IF NOT EXISTS *)
  | Some _ => mret tt
  end.

Definition audit (iso : string) (evt_type : string) (payload : json)
    (operator : string) : M string :=
  let ts := iso +:+ "Z" in
  let record := JObj [("ts", JStr ts); ("type", JStr evt_type);
                      ("payload", payload); ("operator", JStr operator)] in
  let h := SHA256.hexdigest (encode (json_dumps true record)) in
  db ← get_db;
  match db with
  | None => raise OperationalError   (* no such table: events *)
  | Some t =>
      set_db (insert_row t ts evt_type (json_dumps false payload) operator h);;
      mret h
  end.

(** ** Agent registry *)

Definition new_agent (meta : json) (now : Q) : dict :=
  <["meta" := PJson meta]>
    (<["last_seen" := PFloat now]>
       (<["status" := PJson (JStr "idle")]>
          (<["task" := PJson JNull]> ∅))).

Definition register_agent (now : Q) (iso : string) (agent_id meta : json) : M unit :=
  k ← as_key agent_id;
  agents ← get_agents;
  set_agents (<[k := new_agent meta now]> agents);;
  audit iso "register_agent" (JObj [("id", agent_id); ("meta", meta)]) "swarm-core";;
  mret tt.

Definition update_heartbeat (now : Q) (agent_id : json) : M unit :=
  k ← as_key agent_id;
  agents ← get_agents;
  match agents !! k with
  | Some d => set_agents (<[k := <["last_seen" := PFloat now]> d]> agents)
  | None => mret tt
  end.

Definition assign_task (iso : string) (agent_id task : json) : M bool :=
  k ← as_key agent_id;
  agents ← get_agents;
  match agents !! k with
  | None => mret false
  | Some d =>
      set_agents
        (<[k := <["status" := PJson (JStr "assigned")]> (<["task" := PJson task]> d)]>
           agents);;
      audit iso "task_assigned" (JObj [("id", agent_id); ("task", task)]) "swarm-core";;
      mret true
  end.

(** [round(x, 1)]: to the nearest tenth, a tie to the even one. *)
Definition round_half_even (x : Q) : Z :=
  let f := Qfloor x in
  match Qcompare (x - inject_Z f) (1 # 2) with
  | Lt => f
  | Gt => (f + 1)%Z
  | Eq => if Z.even f then f else (f + 1)%Z
  end.

Definition round1 (x : Q) : Q := (inject_Z (round_half_even (x * 10)) / 10)%Q.

(** [{**meta, "last_seen_delta": round(now - meta["last_seen"], 1)}] *)
Definition agent_view (now : Q) (d : dict) : outcome dict :=
  match d !! "last_seen" with
  | None => Raised KeyError
  | Some (PFloat t) =>
      Returned (<["last_seen_delta" := PFloat (round1 (now - t))]> d)
  | Some (PJson (JNum n)) =>
      Returned (<["last_seen_delta" := PFloat (round1 (now - inject_Z n))]> d)
  | Some (PJson (JBool b)) =>
      Returned (<["last_seen_delta" :=
                   PFloat (round1 (now - inject_Z (if b then 1 else 0)))]> d)
  | Some (PJson _) => Raised TypeError
  end.
(* An [int] too large for a float would raise OverflowError in the two
   middle cases; no entry ever holds an [int] there. *)

Definition raised_of {A} (o : outcome A) : option exn :=
  match o with Raised e => Some e | Returned _ => None end.
Definition returned_of {A} (o : outcome A) : option A :=
  match o with Returned a => Some a | Raised _ => None end.

(** The dict comprehension over [AGENTS.items()].  When several entries
    raise, which one is met first depends on insertion order, which the
    map does not keep. *)
Definition list_agents (now : Q) : M (gmap key dict) :=
  agents ← get_agents;
  let views := agent_view now <$> agents in
  match omap (fun kv => raised_of (snd kv)) (map_to_list views) with
  | e :: _ => raise e
  | [] => mret (omap returned_of views)
  end.

(** ** Flask routes

    [data] is the parsed request body, [request.get_json(force=True)];
    a response is the body given to [jsonify] with the status code. *)

Definition response : Type := json * Z.

(** [data.get(k, default)]; only a dict has [get]. *)
Definition data_get (data : json) (k : string) (default : json) : M json :=
  match data with
  | JObj d => mret (match dict_lookup k d with Some v => v | None => default end)
  | _ => raise AttributeError
  end.

Definition missing_agent_id : response :=
  (JObj [("ok", JBool false); ("error", JStr "missing agent_id")], 400).
Definition missing_params : response :=
  (JObj [("ok", JBool false); ("error", JStr "missing params")], 400).
Definition ok_response (b : bool) : response := (JObj [("ok", JBool b)], 200).

Definition api_register (now : Q) (iso : string) (data : json) : M response :=
  agent_id ← data_get data "agent_id" JNull;
  meta ← data_get data "meta" (JObj []);
  if negb (truthy agent_id) then mret missing_agent_id
  else register_agent now iso agent_id meta;; mret (ok_response true).

Definition api_heartbeat (now : Q) (data : json) : M response :=
  agent_id ← data_get data "agent_id" JNull;
  if negb (truthy agent_id) then mret missing_agent_id
  else update_heartbeat now agent_id;; mret (ok_response true).

Definition api_assign (iso : string) (data : json) : M response :=
  agent_id ← data_get data "agent_id" JNull;
  task ← data_get data "task" JNull;
  if negb (truthy agent_id) || negb (truthy task) then mret missing_params
  else success ← assign_task iso agent_id task; mret (ok_response success).

Definition newer_first (a b : row) : Prop := (r_id b <= r_id a)%Z.

Global Instance newer_first_dec a b : Decision (newer_first a b).
Proof. unfold newer_first. apply _. Defined.

(** [SELECT * FROM events ORDER BY id DESC LIMIT 50]; the rows are
    the list handed to [jsonify]. *)
Definition api_audit : M (list row) :=
  db ← get_db;
  match db with
  | None => raise OperationalError
  | Some t => mret (take 50 (merge_sort newer_first (rows t)))
  end.

(** ** Runs of the program *)

Inductive call : Type :=
  | Call_init_db
  | Call_audit (iso evt_type : string) (payload : json) (operator : string)
  | Call_register_agent (now : Q) (iso : string) (agent_id meta : json)
  | Call_update_heartbeat (now : Q) (agent_id : json)
  | Call_assign_task (iso : string) (agent_id task : json)
  | Call_list_agents (now : Q)
  | Call_api_register (now : Q) (iso : string) (data : json)
  | Call_api_heartbeat (now : Q) (data : json)
  | Call_api_assign (iso : string) (data : json)
  | Call_api_audit
  | Restart.

(** The state a call leaves, whether it returns or raises.  A restart of
    the process empties [AGENTS] and keeps the database file. *)
Definition exec (c : call) (st : state) : state :=
  match c with
  | Call_init_db => snd (init_db st)
  | Call_audit iso ty p op => snd (audit iso ty p op st)
  | Call_register_agent now iso a m => snd (register_agent now iso a m st)
  | Call_update_heartbeat now a => snd (update_heartbeat now a st)
  | Call_assign_task iso a t => snd (assign_task iso a t st)
  | Call_list_agents now => snd (list_agents now st)
  | Call_api_register now iso d => snd (api_register now iso d st)
  | Call_api_heartbeat now d => snd (api_heartbeat now d st)
  | Call_api_assign iso d => snd (api_assign iso d st)
  | Call_api_audit => snd (api_audit st)
  | Restart => {| AGENTS := ∅; DB := DB st |}
  end.

Inductive reachable : state -> Prop :=
  | reachable_fresh : reachable fresh
  | reachable_exec c st : reachable st -> reachable (exec c st).

(** ** Specification-side vocabulary *)

(** The content hash of an event: SHA-256, in hex, of the record
    [{ts, type, payload, operator}] serialised with its keys sorted. *)
Definition content_hash (ts evt_type : string) (payload : json) (operator : string)
    : string :=
  SHA256.hexdigest
    (encode (json_dumps true
       (JObj [("ts", JStr ts); ("type", JStr evt_type);
              ("payload", payload); ("operator", JStr operator)]))).

(** The row that [audit] adds to table [t]. *)
Definition event_row (t : table) (iso evt_type : string) (payload : json)
    (operator : string) : row :=
  let ts := iso +:+ "Z" in
  mkRow (next_rowid t) ts evt_type (json_dumps false payload) operator
    (content_hash ts evt_type payload operator).

(** The table after that [audit]. *)
Definition table_after (t : table) (iso evt_type : string) (payload : json)
    (operator : string) : table :=
  {| rows := rows t ++ [event_row t iso evt_type payload operator];
     last_rowid := next_rowid t |}.

(** Between [st] and [st'] exactly one event, of type [ty], was
    appended to the audit table. *)
Definition appended_one (st st' : state) (ty : string) (payload : json) : Prop :=
  exists t t' r,
    DB st = Some t /\ DB st' = Some t' /\ rows t' = rows t ++ [r] /\
    r_type r = ty /\ r_payload r = json_dumps false payload.

(** The hash recomputed from a stored row whose payload column decodes
    to [p]. *)
Definition recompute_hash (r : row) (p : json) : string :=
  content_hash (r_ts r) (r_type r) p (r_operator r).

Definition row_hash_ok (r : row) : Prop :=
  exists p, r_payload r = json_dumps false p /\ r_hash r = recompute_hash r p.

(** The state with the registry replaced. *)
Definition with_agents (st : state) (a : gmap key dict) : state :=
  {| AGENTS := a; DB := DB st |}.

Definition with_table (st : state) (t : table) : state :=
  {| AGENTS := AGENTS st; DB := Some t |}.

(** What one call can do to the state: nothing, create the table, add
    one event, write one registry entry, or a chain of those. *)
Inductive effect : state -> state -> Prop :=
  | eff_refl st : effect st st
  | eff_create st : DB st = None -> effect st (with_table st empty_table)
  | eff_audit st t iso ty p op :
      DB st = Some t -> effect st (with_table st (table_after t iso ty p op))
  | eff_register st k meta now :
      effect st (with_agents st (<[k := new_agent meta now]> (AGENTS st)))
  | eff_heartbeat st k d now :
      AGENTS st !! k = Some d ->
      effect st (with_agents st (<[k := <["last_seen" := PFloat now]> d]> (AGENTS st)))
  | eff_assign st k d task :
      AGENTS st !! k = Some d ->
      effect st
        (with_agents st
           (<[k := <["status" := PJson (JStr "assigned")]> (<["task" := PJson task]> d)]>
              (AGENTS st)))
  | eff_restart st : effect st (with_agents st ∅)
  | eff_trans st1 st2 st3 : effect st1 st2 -> effect st2 st3 -> effect st1 st3.

(** The dict [register_agent] and the later writes keep under an id. *)
Definition agent_dict (meta : json) (last_seen : Q) (status : string) (task : json)
    : dict :=
  <["meta" := PJson meta]>
    (<["last_seen" := PFloat last_seen]>
       (<["status" := PJson (JStr status)]>
          (<["task" := PJson task]> ∅))).

Definition agent_ok (d : dict) : Prop :=
  exists meta ls status task,
    d = agent_dict meta ls status task /\
    (status = "assigned" \/ (status = "idle" /\ task = JNull)).

Definition registry_ok (a : gmap key dict) : Prop :=
  forall k d, a !! k = Some d -> agent_ok d.

(** The ids of the table are 1, 2, 3, ... in the order of the rows. *)
Definition ids_gapless (l : list row) : Prop :=
  forall i r, l !! i = Some r -> r_id r = (Z.of_nat i + 1)%Z.

Definition table_ok (t : table) : Prop :=
  ids_gapless (rows t) /\ last_rowid t = Z.of_nat (length (rows t)).

(** [a] was appended after [b]. *)
Definition newer (a b : row) : Prop := (r_id b < r_id a)%Z.

(** What [list_agents] returns for an agent: its stored fields and the
    rounded age of its last heartbeat. *)
Definition view_dict (meta : json) (last_seen : Q) (status : string) (task : json)
    (delta : Q) : dict :=
  <["last_seen_delta" := PFloat delta]> (agent_dict meta last_seen status task).

(** The fields the interface section lists for an agent. *)
Definition listed_field (f : string) : Prop :=
  f = "meta" \/ f = "status" \/ f = "task" \/ f = "last_seen_delta".

(** *** Reading [json.dumps] output back

    The devices below serve to show that the text [json.dumps] writes
    determines the value it was written from. *)

Definition is_digit (c : ascii) : bool :=
  let n := N_of_ascii c in ((48 <=? n) && (n <=? 57))%N.

(** The text after a number must not go on with a digit. *)
Definition no_digit_head (r : list ascii) : Prop :=
  match r with
  | [] => True
  | c :: _ => is_digit c = false
  end.

Definition hex_val (c : ascii) : N :=
  let n := N_of_ascii c in
  if (n <? 58)%N then (n - 48)%N else (n - 87)%N.

(** Reads one character of a string body back; a left inverse of
    [escape_char]. *)
Definition unescape_head (l : list ascii) : option (ascii * list ascii) :=
  match l with
  | [] => None
  | c :: r =>
      if negb (Ascii.eqb c backslash) then Some (c, r)
      else
        match r with
        | [] => None
        | e :: r' =>
            if Ascii.eqb e "u" then
              match r' with
              | _ :: _ :: h1 :: h0 :: r'' =>
                  Some (ascii_of_N (16 * hex_val h1 + hex_val h0), r'')
              | _ => None
              end
            else if Ascii.eqb e "n" then Some (ascii_of_nat 10, r')
            else if Ascii.eqb e "r" then Some (ascii_of_nat 13, r')
            else if Ascii.eqb e "t" then Some (ascii_of_nat 9, r')
            else if Ascii.eqb e "b" then Some (ascii_of_nat 8, r')
            else if Ascii.eqb e "f" then Some (ascii_of_nat 12, r')
            else Some (e, r')
        end
  end.

(** The kind of value a text starts, by its first character. *)
Definition head_kind (c : ascii) : nat :=
  let n := N_of_ascii c in
  if (n =? 110)%N then 1          (* n *)
  else if (n =? 116)%N then 2     (* t *)
  else if (n =? 102)%N then 3     (* f *)
  else if (n =? 45)%N || is_digit c then 4
  else if (n =? 34)%N then 5      (* the double quote *)
  else if (n =? 91)%N then 6      (* [ *)
  else if (n =? 123)%N then 7     (* { *)
  else 0.

Definition kind (v : json) : nat :=
  match v with
  | JNull => 1
  | JBool true => 2
  | JBool false => 3
  | JNum _ => 4
  | JStr _ => 5
  | JArr _ => 6
  | JObj _ => 7
  end.

(** What follows the first item of a sequence: each further item after
    a separator. *)
Fixpoint sep_tail (parts : list (list ascii)) : list ascii :=
  match parts with
  | [] => []
  | p :: ps => comma_sp ++ p ++ sep_tail ps
  end.

(** Induction on a value that reaches the items of lists and dicts. *)
Section json_induction.
Variable P : json -> Prop.
Hypothesis Hnull : P JNull.
Hypothesis Hbool : forall b, P (JBool b).
Hypothesis Hnum : forall n, P (JNum n).
Hypothesis Hstr : forall s, P (JStr s).
Hypothesis Harr : forall l, Forall P l -> P (JArr l).
Hypothesis Hobj : forall d, Forall (fun kv => P (snd kv)) d -> P (JObj d).

Fixpoint json_nested_ind (v : json) : P v :=
  match v with
  | JNull => Hnull
  | JBool b => Hbool b
  | JNum n => Hnum n
  | JStr s => Hstr s
  | JArr l =>
      Harr l
        ((fix go (l : list json) : Forall P l :=
            match l with
            | [] => List.Forall_nil P
            | x :: l' => @List.Forall_cons _ P x l' (json_nested_ind x) (go l')
            end) l)
  | JObj d =>
      Hobj d
        ((fix go (d : list (string * json)) : Forall (fun kv => P (snd kv)) d :=
            match d with
            | [] => List.Forall_nil _
            | kv :: d' =>
                @List.Forall_cons _ (fun kv => P (snd kv)) kv d'
                  (json_nested_ind (snd kv)) (go d')
            end) d)
  end.
End json_induction.

(** The digits of a decimal numeral. *)
Definition udigits (d : Decimal.uint) : list ascii :=
  list_ascii_of_string (NilEmpty.string_of_uint d).

(** An item of a dict as [json.dumps] writes it. *)
Definition render_item (kv : string * json) : list ascii :=
  quote (fst kv) ++ colon_sp ++ dumps false (snd kv).

(** An item is read back whatever follows it, as long as that is not a
    digit. *)
Definition readable {A : Type} (render : A -> list ascii) (x : A) : Prop :=
  forall x' r r',
    render x ++ r = render x' ++ r' ->
    no_digit_head r -> no_digit_head r' -> x = x' /\ r = r'.

(** *** States and runs used as examples *)

(** A started hub with an empty registry and an empty audit table. *)
Definition started : state := snd (init_db fresh).

(** A started hub that holds the agent "a1", idle. *)
Definition one_agent : state :=
  {| AGENTS := {[ KStr "a1" := new_agent (JObj [("role", JStr "scout")]) 0 ]};
     DB := Some empty_table |}.

(** A started hub where "a1" has been given the task "patrol". *)
Definition one_assigned : state :=
  {| AGENTS := {[ KStr "a1" :=
                    <["status" := PJson (JStr "assigned")]>
                      (<["task" := PJson (JStr "patrol")]>
                         (new_agent (JObj [("role", JStr "scout")]) 0)) ]};
     DB := Some empty_table |}.

(** A short run: start, register "a1", give it the task "patrol". *)
Definition demo_run : state :=
  exec (Call_assign_task "2026-01-01T00:00:02" (JStr "a1") (JStr "patrol"))
    (exec (Call_register_agent 0 "2026-01-01T00:00:01" (JStr "a1")
             (JObj [("role", JStr "scout")]))
       (exec Call_init_db fresh)).

(** The audit table that run leaves. *)
Definition demo_table : table :=
  table_after
    (table_after empty_table "2026-01-01T00:00:01" "register_agent"
       (JObj [("id", JStr "a1"); ("meta", JObj [("role", JStr "scout")])]) "swarm-core")
    "2026-01-01T00:00:02" "task_assigned"
    (JObj [("id", JStr "a1"); ("task", JStr "patrol")]) "swarm-core".

(** The first row of that table. *)
Definition demo_row : row :=
  event_row empty_table "2026-01-01T00:00:01" "register_agent"
    (JObj [("id", JStr "a1"); ("meta", JObj [("role", JStr "scout")])]) "swarm-core".

(** A store that holds the table of the short run. *)
Definition demo_store : state := {| AGENTS := ∅; DB := Some demo_table |}.

(** ** What one call does *)

(** The table, if there is one, after an [audit]. *)
Definition db_after (db : option table) (iso evt_type : string) (payload : json)
    (operator : string) : option table :=
  match db with
  | Some t => Some (table_after t iso evt_type payload operator)
  | None => None
  end.

(** The calls that go through the registry: the three registry
    functions, the listing and the routes. *)
Definition registry_call (c : call) : bool :=
  match c with
  | Call_init_db | Call_audit _ _ _ _ | Restart => false
  | _ => true
  end.

(** What such a call does, seen from outside: it changes nothing,
    registers with its event, moves a heartbeat, or assigns with its
    event. *)
Inductive transition : state -> state -> Prop :=
  | tr_none st : transition st st
  | tr_register st k agent_id meta now iso :
      hash_key agent_id = Some k ->
      transition st
        {| AGENTS := <[k := new_agent meta now]> (AGENTS st);
           DB := db_after (DB st) iso "register_agent"
                   (JObj [("id", agent_id); ("meta", meta)]) "swarm-core" |}
  | tr_heartbeat st k d now :
      AGENTS st !! k = Some d ->
      transition st (with_agents st (<[k := <["last_seen" := PFloat now]> d]> (AGENTS st)))
  | tr_assign st k agent_id d task iso :
      hash_key agent_id = Some k ->
      AGENTS st !! k = Some d ->
      transition st
        {| AGENTS := <[k := <["status" := PJson (JStr "assigned")]>
                              (<["task" := PJson task]> d)]> (AGENTS st);
           DB := db_after (DB st) iso "task_assigned"
                   (JObj [("id", agent_id); ("task", task)]) "swarm-core" |}.

(** The states of a hub that ran [init_db] before it served its first
    call, as [__main__] does. *)
Inductive served : state -> Prop :=
  | served_started : served started
  | served_exec c st : served st -> served (exec c st).

(** The log [l] holds the registration of the agent under key [k],
    with the metadata its entry [d] holds now. *)
Definition registration_logged (l : list row) (k : key) (d : dict) : Prop :=
  exists r agent_id meta,
    r ∈ l /\ r_type r = "register_agent" /\ hash_key agent_id = Some k /\
    d !! "meta" = Some (PJson meta) /\
    r_payload r = json_dumps false (JObj [("id", agent_id); ("meta", meta)]).

(** If the entry [d] is assigned, the log [l] holds the assignment of
    its present task. *)
Definition assignment_logged (l : list row) (k : key) (d : dict) : Prop :=
  d !! "status" = Some (PJson (JStr "assigned")) ->
  exists r agent_id task,
    r ∈ l /\ r_type r = "task_assigned" /\ hash_key agent_id = Some k /\
    d !! "task" = Some (PJson task) /\
    r_payload r = json_dumps false (JObj [("id", agent_id); ("task", task)]).

(** The table exists and accounts for every entry of the registry. *)
Definition backed (st : state) : Prop :=
  exists t,
    DB st = Some t /\
    forall k d, AGENTS st !! k = Some d ->
      registration_logged (rows t) k d /\ assignment_logged (rows t) k d.

(** *** Further example states *)

(** A hub that holds "a1" but whose database has no [events] table. *)
Definition one_agent_no_table : state :=
  {| AGENTS := {[ KStr "a1" := new_agent (JObj [("role", JStr "scout")]) 0 ]};
     DB := None |}.

(** *** Order of dict keys, hex digits *)

(** [a] sorts before [b], or with it: the order [sorted] puts items in. *)
Definition key_le {A} (a b : string * A) : Prop := String.leb (fst a) (fst b) = true.

Definition is_lower_hex (c : ascii) : bool :=
  let n := N_of_ascii c in
  (((48 <=? n) && (n <=? 57)) || ((97 <=? n) && (n <=? 102)))%N.

(** A printable ASCII character, from the space to the tilde. *)
Definition printable (c : ascii) : bool :=
  let n := N_of_ascii c in ((32 <=? n) && (n <=? 126))%N.

(** * Properties *)

(** ** The digest of known messages *)

Example sha256_abc :
  SHA256.hexdigest (encode "abc")
  = "ba7816bf8f01cfea414140de5dae2223b00361a396177a9cb410ff61f20015ad".
Proof. vm_compute. reflexivity. Qed.

Example sha256_two_blocks :
  SHA256.hexdigest (encode "abcdbcdecdefdefgefghfghighijhijkijkljklmklmnlmnomnopnopq")
  = "248d6a61d20638b8e5c026930c3e6039a33ce45964ff2167f6ecedd419db06c1".
Proof. vm_compute. reflexivity. Qed.

(** ** Unfolding the monad *)

Ltac run :=
  unfold mbind, M_bind, bind, mret, M_ret, ret, raise,
    get_agents, set_agents, get_db, set_db; simpl.

Lemma as_key_some v k st : hash_key v = Some k -> as_key v st = (Returned k, st).
Proof. intros H. unfold as_key. rewrite H. reflexivity. Qed.

Lemma audit_some iso ty p op st t :
  DB st = Some t ->
  audit iso ty p op st
  = (Returned (content_hash (iso +:+ "Z") ty p op),
     with_table st (table_after t iso ty p op)).
Proof. intros H. unfold audit. run. rewrite H. reflexivity. Qed.

Lemma audit_none iso ty p op st :
  DB st = None -> audit iso ty p op st = (Raised OperationalError, st).
Proof. intros H. unfold audit. run. rewrite H. reflexivity. Qed.

(** ** The registry operations, equation by equation *)

Lemma assign_task_unknown iso agent_id task st k :
  hash_key agent_id = Some k ->
  AGENTS st !! k = None ->
  assign_task iso agent_id task st = (Returned false, st).
Proof.
  intros Hk Hn. unfold assign_task. run.
  rewrite (as_key_some _ _ _ Hk). simpl. rewrite Hn. reflexivity.
Qed.

Lemma assign_task_known iso agent_id task st k d t :
  hash_key agent_id = Some k ->
  AGENTS st !! k = Some d ->
  DB st = Some t ->
  assign_task iso agent_id task st
  = (Returned true,
     {| AGENTS := <[k := <["status" := PJson (JStr "assigned")]>
                           (<["task" := PJson task]> d)]> (AGENTS st);
        DB := Some (table_after t iso "task_assigned"
                      (JObj [("id", agent_id); ("task", task)]) "swarm-core") |}).
Proof.
  intros Hk Hd Ht. unfold assign_task. run.
  rewrite (as_key_some _ _ _ Hk). simpl. rewrite Hd.
  erewrite audit_some by (simpl; exact Ht). reflexivity.
Qed.

Lemma register_agent_eq now iso agent_id meta st k t :
  hash_key agent_id = Some k ->
  DB st = Some t ->
  register_agent now iso agent_id meta st
  = (Returned tt,
     {| AGENTS := <[k := new_agent meta now]> (AGENTS st);
        DB := Some (table_after t iso "register_agent"
                      (JObj [("id", agent_id); ("meta", meta)]) "swarm-core") |}).
Proof.
  intros Hk Ht. unfold register_agent. run.
  rewrite (as_key_some _ _ _ Hk). simpl.
  erewrite audit_some by (simpl; exact Ht). reflexivity.
Qed.

Lemma update_heartbeat_unknown now agent_id st k :
  hash_key agent_id = Some k ->
  AGENTS st !! k = None ->
  update_heartbeat now agent_id st = (Returned tt, st).
Proof.
  intros Hk Hn. unfold update_heartbeat. run.
  rewrite (as_key_some _ _ _ Hk). simpl. rewrite Hn. reflexivity.
Qed.

Lemma update_heartbeat_known now agent_id st k d :
  hash_key agent_id = Some k ->
  AGENTS st !! k = Some d ->
  update_heartbeat now agent_id st
  = (Returned tt, with_agents st (<[k := <["last_seen" := PFloat now]> d]> (AGENTS st))).
Proof.
  intros Hk Hd. unfold update_heartbeat. run.
  rewrite (as_key_some _ _ _ Hk). simpl. rewrite Hd. reflexivity.
Qed.

Lemma dict_lookup_remove k d : dict_lookup k (dict_remove k d) = None.
Proof.
  induction d as [|[k' v] d IH]; simpl; [reflexivity|].
  destruct (String.eqb k k') eqn:E; [exact IH|].
  simpl. rewrite E. exact IH.
Qed.

Lemma new_agent_fields meta now f :
  is_Some (new_agent meta now !! f) ->
  f = "meta" \/ f = "last_seen" \/ f = "status" \/ f = "task".
Proof.
  unfold new_agent. intros [x Hx].
  repeat (rewrite lookup_insert in Hx; case_decide; [auto|]).
  rewrite lookup_empty in Hx. discriminate.
Qed.

(** ** Every call is a chain of elementary effects *)

Lemma as_key_none v st : hash_key v = None -> as_key v st = (Raised TypeError, st).
Proof. intros H. unfold as_key. rewrite H. reflexivity. Qed.

Lemma init_db_effect st : effect st (snd (init_db st)).
Proof.
  unfold init_db. run. destruct (DB st) eqn:E; simpl.
  - apply eff_refl.
  - apply eff_create. exact E.
Qed.

Lemma audit_effect iso ty p op st : effect st (snd (audit iso ty p op st)).
Proof.
  destruct (DB st) as [t|] eqn:E.
  - rewrite (audit_some _ _ _ _ _ _ E). simpl. apply eff_audit. exact E.
  - rewrite (audit_none _ _ _ _ _ E). apply eff_refl.
Qed.

Lemma audit_agents iso ty p op st : AGENTS (snd (audit iso ty p op st)) = AGENTS st.
Proof.
  destruct (DB st) as [t|] eqn:E.
  - rewrite (audit_some _ _ _ _ _ _ E). reflexivity.
  - rewrite (audit_none _ _ _ _ _ E). reflexivity.
Qed.

Lemma register_agent_state now iso agent_id meta st :
  snd (register_agent now iso agent_id meta st)
  = match hash_key agent_id with
    | Some k =>
        snd (audit iso "register_agent" (JObj [("id", agent_id); ("meta", meta)])
               "swarm-core" (with_agents st (<[k := new_agent meta now]> (AGENTS st))))
    | None => st
    end.
Proof.
  unfold register_agent. run. destruct (hash_key agent_id) as [k|] eqn:Hk.
  - rewrite (as_key_some _ _ _ Hk). simpl. unfold with_agents.
    destruct (audit _ _ _ _ _) as [[h|e] st']; reflexivity.
  - rewrite (as_key_none _ _ Hk). reflexivity.
Qed.

Lemma update_heartbeat_state now agent_id st :
  snd (update_heartbeat now agent_id st)
  = match hash_key agent_id with
    | Some k =>
        match AGENTS st !! k with
        | Some d => with_agents st (<[k := <["last_seen" := PFloat now]> d]> (AGENTS st))
        | None => st
        end
    | None => st
    end.
Proof.
  unfold update_heartbeat. run. destruct (hash_key agent_id) as [k|] eqn:Hk.
  - rewrite (as_key_some _ _ _ Hk). simpl.
    destruct (AGENTS st !! k); reflexivity.
  - rewrite (as_key_none _ _ Hk). reflexivity.
Qed.

Lemma assign_task_state iso agent_id task st :
  snd (assign_task iso agent_id task st)
  = match hash_key agent_id with
    | Some k =>
        match AGENTS st !! k with
        | Some d =>
            snd (audit iso "task_assigned" (JObj [("id", agent_id); ("task", task)])
                   "swarm-core"
                   (with_agents st
                      (<[k := <["status" := PJson (JStr "assigned")]>
                                (<["task" := PJson task]> d)]> (AGENTS st))))
        | None => st
        end
    | None => st
    end.
Proof.
  unfold assign_task. run. destruct (hash_key agent_id) as [k|] eqn:Hk.
  - rewrite (as_key_some _ _ _ Hk). simpl.
    destruct (AGENTS st !! k); [|reflexivity]. unfold with_agents.
    destruct (audit _ _ _ _ _) as [[h|e] st']; reflexivity.
  - rewrite (as_key_none _ _ Hk). reflexivity.
Qed.

Lemma register_agent_effect now iso agent_id meta st :
  effect st (snd (register_agent now iso agent_id meta st)).
Proof.
  rewrite register_agent_state. destruct (hash_key agent_id); [|apply eff_refl].
  eapply eff_trans; [apply eff_register|apply audit_effect].
Qed.

Lemma update_heartbeat_effect now agent_id st :
  effect st (snd (update_heartbeat now agent_id st)).
Proof.
  rewrite update_heartbeat_state. destruct (hash_key agent_id); [|apply eff_refl].
  destruct (AGENTS st !! k) eqn:E; [|apply eff_refl].
  apply eff_heartbeat. exact E.
Qed.

Lemma assign_task_effect iso agent_id task st :
  effect st (snd (assign_task iso agent_id task st)).
Proof.
  rewrite assign_task_state. destruct (hash_key agent_id); [|apply eff_refl].
  destruct (AGENTS st !! k) eqn:E; [|apply eff_refl].
  eapply eff_trans; [apply eff_assign; exact E|apply audit_effect].
Qed.

Lemma list_agents_state now st : snd (list_agents now st) = st.
Proof.
  unfold list_agents. run.
  destruct (omap _ _); reflexivity.
Qed.

Lemma api_audit_state st : snd (api_audit st) = st.
Proof. unfold api_audit. run. destruct (DB st); reflexivity. Qed.

Lemma data_get_cases data k dflt st :
  (exists v, data_get data k dflt st = (Returned v, st)) \/
  data_get data k dflt st = (Raised AttributeError, st).
Proof. destruct data; simpl; eauto. Qed.

Lemma api_register_effect now iso data st :
  effect st (snd (api_register now iso data st)).
Proof.
  unfold api_register. run.
  destruct (data_get_cases data "agent_id" JNull st) as [[v ->]| ->]; [|apply eff_refl].
  destruct (data_get_cases data "meta" (JObj []) st) as [[m ->]| ->]; [|apply eff_refl].
  destruct (negb (truthy v)); [apply eff_refl|].
  pose proof (register_agent_effect now iso v m st) as H.
  destruct (register_agent now iso v m st) as [[u|e] st']; exact H.
Qed.

Lemma api_heartbeat_effect now data st :
  effect st (snd (api_heartbeat now data st)).
Proof.
  unfold api_heartbeat. run.
  destruct (data_get_cases data "agent_id" JNull st) as [[v ->]| ->]; [|apply eff_refl].
  destruct (negb (truthy v)); [apply eff_refl|].
  pose proof (update_heartbeat_effect now v st) as H.
  destruct (update_heartbeat now v st) as [[u|e] st']; exact H.
Qed.

Lemma api_assign_effect iso data st :
  effect st (snd (api_assign iso data st)).
Proof.
  unfold api_assign. run.
  destruct (data_get_cases data "agent_id" JNull st) as [[v ->]| ->]; [|apply eff_refl].
  destruct (data_get_cases data "task" JNull st) as [[w ->]| ->]; [|apply eff_refl].
  destruct (negb (truthy v) || negb (truthy w)); [apply eff_refl|].
  pose proof (assign_task_effect iso v w st) as H.
  destruct (assign_task iso v w st) as [[u|e] st']; exact H.
Qed.

Lemma exec_effect c st : effect st (exec c st).
Proof.
  destruct c; simpl.
  - apply init_db_effect.
  - apply audit_effect.
  - apply register_agent_effect.
  - apply update_heartbeat_effect.
  - apply assign_task_effect.
  - rewrite list_agents_state. apply eff_refl.
  - apply api_register_effect.
  - apply api_heartbeat_effect.
  - apply api_assign_effect.
  - rewrite api_audit_state. apply eff_refl.
  - apply eff_restart.
Qed.

(** An invariant of the elementary effects holds in every reachable
    state. *)
Lemma reachable_invariant (P : state -> Prop) :
  P fresh ->
  (forall st st', effect st st' -> P st -> P st') ->
  forall st, reachable st -> P st.
Proof.
  intros H0 Hstep st Hr. induction Hr as [|c st Hr IH]; [exact H0|].
  exact (Hstep _ _ (exec_effect c st) IH).
Qed.

Lemma demo_run_reachable : reachable demo_run.
Proof. unfold demo_run. do 3 apply reachable_exec. apply reachable_fresh. Qed.

(** ** The shape of registry entries *)

Ltac dict_eq :=
  apply map_eq; intros ?f; unfold agent_dict, new_agent;
  rewrite ?lookup_insert; repeat case_decide; subst;
  try reflexivity; try congruence.

Lemma agent_dict_heartbeat meta ls status task now :
  <["last_seen" := PFloat now]> (agent_dict meta ls status task)
  = agent_dict meta now status task.
Proof. dict_eq. Qed.

Lemma agent_dict_assign meta ls status task task' :
  <["status" := PJson (JStr "assigned")]>
    (<["task" := PJson task']> (agent_dict meta ls status task))
  = agent_dict meta ls "assigned" task'.
Proof. dict_eq. Qed.

Lemma agent_ok_new meta now : agent_ok (new_agent meta now).
Proof. exists meta, now, "idle", JNull. split; [reflexivity|auto]. Qed.

Lemma agent_ok_heartbeat d now :
  agent_ok d -> agent_ok (<["last_seen" := PFloat now]> d).
Proof.
  intros (m & ls & s & t & -> & H). exists m, now, s, t.
  split; [apply agent_dict_heartbeat|exact H].
Qed.

Lemma agent_ok_assign d task :
  agent_ok d ->
  agent_ok (<["status" := PJson (JStr "assigned")]> (<["task" := PJson task]> d)).
Proof.
  intros (m & ls & s & t & -> & H). exists m, ls, "assigned", task.
  split; [apply agent_dict_assign|auto].
Qed.

Lemma registry_ok_insert a k d :
  registry_ok a -> agent_ok d -> registry_ok (<[k := d]> a).
Proof.
  intros Ha Hd k' d' H. rewrite lookup_insert in H. case_decide.
  - inversion H; subst. exact Hd.
  - exact (Ha _ _ H).
Qed.

Lemma effect_registry_ok st st' :
  effect st st' -> registry_ok (AGENTS st) -> registry_ok (AGENTS st').
Proof.
  induction 1; simpl; intros Hok; auto.
  - apply registry_ok_insert; [exact Hok|apply agent_ok_new].
  - apply registry_ok_insert; [exact Hok|].
    apply agent_ok_heartbeat. exact (Hok _ _ H).
  - apply registry_ok_insert; [exact Hok|].
    apply agent_ok_assign. exact (Hok _ _ H).
  - intros k d H. rewrite lookup_empty in H. discriminate.
Qed.

Lemma reachable_registry_ok st : reachable st -> registry_ok (AGENTS st).
Proof.
  apply (reachable_invariant (fun st => registry_ok (AGENTS st))).
  - intros k d H. simpl in H. rewrite lookup_empty in H. discriminate.
  - exact effect_registry_ok.
Qed.

(** ** The audit table along a run *)

Lemma effect_table_invariant (P : table -> Prop) :
  P empty_table ->
  (forall t iso ty p op, P t -> P (table_after t iso ty p op)) ->
  forall st st', effect st st' ->
    (forall t, DB st = Some t -> P t) -> forall t, DB st' = Some t -> P t.
Proof.
  intros H0 Hstep st st' He.
  induction He; simpl; intros Hst t' Ht'; auto.
  - inversion Ht'; subst. exact H0.
  - inversion Ht'; subst. apply Hstep. exact (Hst _ H).
Qed.

Lemma reachable_table_invariant (P : table -> Prop) :
  P empty_table ->
  (forall t iso ty p op, P t -> P (table_after t iso ty p op)) ->
  forall st t, reachable st -> DB st = Some t -> P t.
Proof.
  intros H0 Hstep st t Hr. revert t.
  apply (reachable_invariant (fun st => forall t, DB st = Some t -> P t)); auto.
  - intros t Ht. discriminate.
  - intros s s' He Hs. exact (effect_table_invariant P H0 Hstep s s' He Hs).
Qed.

Lemma effect_extends st st' :
  effect st st' ->
  forall t, DB st = Some t ->
    exists t' more, DB st' = Some t' /\ rows t' = rows t ++ more.
Proof.
  induction 1; simpl; intros t0 Ht0;
    try (exists t0, []; split; [assumption|symmetry; apply app_nil_r]).
  - congruence.
  - rewrite H in Ht0. inversion Ht0; subst t0.
    eexists. eexists. split; reflexivity.
  - destruct (IHeffect1 _ Ht0) as (t1 & m1 & Ht1 & E1).
    destruct (IHeffect2 _ Ht1) as (t2 & m2 & Ht2 & E2).
    exists t2, (m1 ++ m2). split; [exact Ht2|].
    rewrite E2, E1, <- app_assoc. reflexivity.
Qed.

Lemma max_rowid_le l n :
  (0 <= n)%Z -> (forall r, r ∈ l -> (r_id r <= n)%Z) -> (max_rowid l <= n)%Z.
Proof.
  intros Hn. induction l as [|r l IH]; simpl; intros H; [lia|].
  apply Z.max_lub.
  - apply H. left.
  - apply IH. intros r' Hr'. apply H. right. exact Hr'.
Qed.

Lemma table_ok_empty : table_ok empty_table.
Proof.
  split; [|reflexivity]. intros i r H. simpl in H.
  rewrite lookup_nil in H. discriminate.
Qed.

Lemma table_ok_next t :
  table_ok t -> next_rowid t = (Z.of_nat (length (rows t)) + 1)%Z.
Proof.
  intros [Hg Hl]. unfold next_rowid. rewrite Hl.
  rewrite Z.max_l; [reflexivity|].
  apply max_rowid_le; [lia|].
  intros r Hr. apply list_elem_of_lookup in Hr as [i Hi].
  rewrite (Hg _ _ Hi). apply lookup_lt_Some in Hi. lia.
Qed.

Lemma table_ok_after t iso ty p op :
  table_ok t -> table_ok (table_after t iso ty p op).
Proof.
  intros Hok. pose proof (table_ok_next t Hok) as Hn.
  destruct Hok as [Hg Hl]. split; simpl.
  - intros i r Hi.
    destruct (decide (i < length (rows t))%nat) as [Hlt|Hge].
    + rewrite lookup_app_l in Hi by exact Hlt. exact (Hg _ _ Hi).
    + rewrite lookup_app_r in Hi by lia.
      destruct (i - length (rows t))%nat as [|j] eqn:E; simpl in Hi.
      * inversion Hi; subst r. simpl. rewrite Hn. lia.
      * rewrite lookup_nil in Hi. discriminate.
  - rewrite Hn, length_app. simpl. lia.
Qed.

Lemma reachable_table_ok st t : reachable st -> DB st = Some t -> table_ok t.
Proof.
  apply (reachable_table_invariant table_ok).
  - exact table_ok_empty.
  - intros. apply table_ok_after. assumption.
Qed.

(** ** [json.dumps] can be read back *)

(** *** Numbers *)

Lemma udigits_inj d : forall d' r r',
  udigits d ++ r = udigits d' ++ r' ->
  no_digit_head r -> no_digit_head r' -> d = d' /\ r = r'.
Proof.
  unfold udigits.
  induction d; intros d' r r' E Hr Hr'; destruct d'; simpl in E;
    try (subst; simpl in *; discriminate);
    try (injection E as E; try discriminate E);
    try (destruct (IHd _ _ _ E Hr Hr') as [-> ->]; split; reflexivity).
  split; [reflexivity|exact E].
Qed.

Lemma udigits_head d r :
  d <> Decimal.Nil -> exists c t, udigits d ++ r = c :: t /\ is_digit c = true.
Proof.
  unfold udigits. destruct d; intros H; try contradiction; simpl; eauto.
Qed.

Lemma to_int_cases n :
  exists d, d <> Decimal.Nil /\
    (Z.to_int n = Decimal.Pos d \/ Z.to_int n = Decimal.Neg d).
Proof.
  destruct n; simpl.
  - exists (Decimal.D0 Decimal.Nil). split; [discriminate|auto].
  - exists (Pos.to_uint p). split; [apply DecimalPos.Unsigned.to_uint_nonnil|auto].
  - exists (Pos.to_uint p). split; [apply DecimalPos.Unsigned.to_uint_nonnil|auto].
Qed.

Lemma int_str_head n r :
  exists c t, int_str n ++ r = c :: t /\ head_kind c = 4%nat.
Proof.
  unfold int_str. destruct (to_int_cases n) as (d & Hd & [E|E]); rewrite E; simpl.
  - destruct (udigits_head d r Hd) as (c & t & Hc & Hdig).
    exists c, t. split; [exact Hc|].
    unfold head_kind. rewrite Hdig.
    unfold is_digit in Hdig.
    destruct (N_of_ascii c =? 110)%N eqn:E1; [apply N.eqb_eq in E1; rewrite E1 in Hdig; discriminate|].
    destruct (N_of_ascii c =? 116)%N eqn:E2; [apply N.eqb_eq in E2; rewrite E2 in Hdig; discriminate|].
    destruct (N_of_ascii c =? 102)%N eqn:E3; [apply N.eqb_eq in E3; rewrite E3 in Hdig; discriminate|].
    rewrite orb_true_r. reflexivity.
  - eexists. eexists. split; reflexivity.
Qed.

Lemma int_str_inj n n' r r' :
  int_str n ++ r = int_str n' ++ r' ->
  no_digit_head r -> no_digit_head r' -> n = n' /\ r = r'.
Proof.
  unfold int_str. intros E Hr Hr'.
  assert (Z.to_int n = Z.to_int n' /\ r = r') as [Ei Er].
  { destruct (to_int_cases n) as (d & Hd & [E1|E1]);
      destruct (to_int_cases n') as (d' & Hd' & [E2|E2]);
      rewrite E1, E2 in *; simpl in E.
    - destruct (udigits_inj _ _ _ _ E Hr Hr') as [-> ->]. auto.
    - destruct (udigits_head d r Hd) as (c & t & Hc & Hdig).
      fold (udigits d) in E. rewrite Hc in E. injection E as -> _. discriminate.
    - destruct (udigits_head d' r' Hd') as (c & t & Hc & Hdig).
      fold (udigits d') in E. rewrite Hc in E. injection E as <- _. discriminate.
    - injection E as E.
      destruct (udigits_inj _ _ _ _ E Hr Hr') as [-> ->]. auto. }
  split; [|exact Er].
  rewrite <- (DecimalZ.of_to n), <- (DecimalZ.of_to n'), Ei. reflexivity.
Qed.

(** *** Strings *)

Lemma unescape_escape c r : unescape_head (escape_char c ++ r) = Some (c, r).
Proof. destruct c as [[] [] [] [] [] [] [] []]; reflexivity. Qed.

Lemma escape_head c r :
  exists h t, escape_char c ++ r = h :: t /\ h <> dquote.
Proof.
  destruct c as [[] [] [] [] [] [] [] []];
    (eexists; eexists; split; [reflexivity|intros E; inversion E]).
Qed.

Lemma body_inj s : forall s' r r',
  flat_map escape_char s ++ dquote :: r = flat_map escape_char s' ++ dquote :: r' ->
  s = s' /\ r = r'.
Proof.
  induction s as [|c s IH]; intros [|c' s'] r r' E; simpl in E.
  - injection E as ->. auto.
  - rewrite <- app_assoc in E.
    destruct (escape_head c' (flat_map escape_char s' ++ dquote :: r'))
      as (h & t & Eh & Hh).
    rewrite Eh in E. injection E as <- _. contradiction.
  - rewrite <- app_assoc in E.
    destruct (escape_head c (flat_map escape_char s ++ dquote :: r))
      as (h & t & Eh & Hh).
    rewrite Eh in E. injection E as -> _. contradiction.
  - rewrite <- !app_assoc in E.
    apply (f_equal unescape_head) in E. rewrite !unescape_escape in E.
    injection E as -> E.
    destruct (IH _ _ _ E) as [-> ->]. auto.
Qed.

Lemma quote_app s r :
  quote s ++ r
  = dquote :: flat_map escape_char (list_ascii_of_string s) ++ dquote :: r.
Proof. unfold quote. simpl. rewrite <- app_assoc. reflexivity. Qed.

Lemma quote_inj s s' r r' :
  quote s ++ r = quote s' ++ r' -> s = s' /\ r = r'.
Proof.
  rewrite !quote_app. intros E. injection E as E.
  destruct (body_inj _ _ _ _ E) as [Es ->]. split; [|reflexivity].
  rewrite <- (string_of_list_ascii_of_string s),
          <- (string_of_list_ascii_of_string s'), Es.
  reflexivity.
Qed.

(** *** Sequences of items *)

Lemma join_with_cons p ps : join_with comma_sp (p :: ps) = p ++ sep_tail ps.
Proof.
  revert p. induction ps as [|q ps IH]; intros p; simpl.
  - symmetry. apply app_nil_r.
  - rewrite <- (IH q). reflexivity.
Qed.

Section sequences.
Context {A : Type} (render : A -> list ascii) (close : ascii).

Hypothesis close_no_digit : is_digit close = false.
Hypothesis close_no_comma : close <> ","%char.
Hypothesis render_head :
  forall x r, exists c t, render x ++ r = c :: t /\ c <> close.

Lemma sep_tail_no_digit l r : no_digit_head (sep_tail (map render l) ++ close :: r).
Proof. destruct l; simpl; [exact close_no_digit|reflexivity]. Qed.

Lemma sep_tail_inj l : forall l' r r',
  Forall (readable render) l ->
  sep_tail (map render l) ++ close :: r = sep_tail (map render l') ++ close :: r' ->
  l = l' /\ r = r'.
Proof.
  induction l as [|x l IH]; intros [|x' l'] r r' Hall E; simpl in E.
  - injection E as ->. auto.
  - injection E as E _. contradiction.
  - injection E as E _. symmetry in E. contradiction.
  - injection E as E. rewrite <- !app_assoc in E.
    apply Forall_cons in Hall as [Hx Hall].
    destruct (Hx _ _ _ E (sep_tail_no_digit _ _) (sep_tail_no_digit _ _))
      as [-> E'].
    destruct (IH _ _ _ Hall E') as [-> ->]. auto.
Qed.

Lemma join_inj l l' r r' :
  Forall (readable render) l ->
  join_with comma_sp (map render l) ++ close :: r
  = join_with comma_sp (map render l') ++ close :: r' ->
  l = l' /\ r = r'.
Proof.
  intros Hall E. destruct l as [|x l], l' as [|x' l']; simpl map in E.
  - simpl in E. injection E as ->. auto.
  - rewrite join_with_cons, <- app_assoc in E. simpl in E.
    destruct (render_head x' (sep_tail (map render l') ++ close :: r'))
      as (c & t & Ec & Hc).
    rewrite Ec in E. injection E as <- _. contradiction.
  - rewrite join_with_cons, <- app_assoc in E. simpl in E.
    destruct (render_head x (sep_tail (map render l) ++ close :: r))
      as (c & t & Ec & Hc).
    rewrite Ec in E. injection E as -> _. contradiction.
  - rewrite !join_with_cons, <- !app_assoc in E.
    apply Forall_cons in Hall as [Hx Hall].
    destruct (Hx _ _ _ E (sep_tail_no_digit _ _) (sep_tail_no_digit _ _))
      as [-> E'].
    destruct (sep_tail_inj _ _ _ _ Hall E') as [-> ->]. auto.
Qed.
End sequences.

(** *** Values *)

Lemma dumps_head v r :
  exists c t, dumps false v ++ r = c :: t /\ head_kind c = kind v.
Proof.
  destruct v as [|[]|n|s|l|d]; try (eexists; eexists; split; reflexivity).
  exact (int_str_head n r).
Qed.

Lemma dumps_head_not c v r :
  head_kind c = 0%nat -> exists h t, dumps false v ++ r = h :: t /\ h <> c.
Proof.
  intros Hc. destruct (dumps_head v r) as (h & t & E & Hk).
  exists h, t. split; [exact E|]. intros ->. rewrite Hc in Hk.
  destruct v as [|[]| | | |]; discriminate.
Qed.

Lemma dumps_obj d :
  dumps false (JObj d)
  = "{"%char :: join_with comma_sp (map render_item d) ++ ["}"%char].
Proof. simpl. rewrite map_map. reflexivity. Qed.

Lemma render_item_head kv r :
  exists c t, render_item kv ++ r = c :: t /\ c <> "}"%char.
Proof.
  unfold render_item, quote. simpl. eexists. eexists.
  split; [reflexivity|discriminate].
Qed.

Lemma render_item_readable kv :
  readable (dumps false) (snd kv) -> readable render_item kv.
Proof.
  destruct kv as [k v]. intros IH [k' v'] r r' E Hr Hr'.
  unfold render_item in E. cbn [fst snd] in *. rewrite <- !app_assoc in E.
  apply quote_inj in E as [-> E]. apply app_inv_head in E.
  destruct (IH _ _ _ E Hr Hr') as [-> ->]. auto.
Qed.

Lemma dumps_same_kind v v' r r' :
  dumps false v ++ r = dumps false v' ++ r' -> kind v = kind v'.
Proof.
  intros E.
  destruct (dumps_head v r) as (c & t & Ec & K).
  destruct (dumps_head v' r') as (c' & t' & Ec' & K').
  rewrite Ec, Ec' in E. injection E as -> _. congruence.
Qed.

Lemma dumps_readable v : readable (dumps false) v.
Proof.
  induction v as [|b|n|s|l IH|d IH] using json_nested_ind;
    intros v' r r' E Hr Hr'; pose proof (dumps_same_kind _ _ _ _ E) as Hk.
  - destruct v' as [|[]| | | |]; try discriminate Hk.
    simpl in E. injection E as ->. auto.
  - destruct b, v' as [|[]| | | |]; try discriminate Hk;
      simpl in E; injection E as ->; auto.
  - destruct v' as [|[]|n'| | |]; try discriminate Hk.
    simpl in E. destruct (int_str_inj _ _ _ _ E Hr Hr') as [-> ->]. auto.
  - destruct v' as [|[]| |s'| |]; try discriminate Hk.
    simpl in E. destruct (quote_inj _ _ _ _ E) as [-> ->]. auto.
  - destruct v' as [|[]| | |l'|]; try discriminate Hk.
    simpl in E. injection E as E. rewrite <- !app_assoc in E. simpl in E.
    assert (Hne : "]"%char <> ","%char) by discriminate.
    destruct (join_inj (dumps false) "]"%char eq_refl Hne
                (fun x q => dumps_head_not "]"%char x q eq_refl) l l' r r' IH E)
      as [-> ->].
    auto.
  - destruct v' as [|[]| | | |d']; try discriminate Hk.
    rewrite !dumps_obj in E.
    simpl in E. injection E as E. rewrite <- !app_assoc in E. simpl in E.
    assert (Hne : "}"%char <> ","%char) by discriminate.
    assert (Hall : Forall (readable render_item) d).
    { eapply Forall_impl; [exact IH|]. intros kv. apply render_item_readable. }
    destruct (join_inj render_item "}"%char eq_refl Hne render_item_head
                d d' r r' Hall E) as [-> ->].
    auto.
Qed.

Lemma json_dumps_inj p p' : json_dumps false p = json_dumps false p' -> p = p'.
Proof.
  unfold json_dumps. intros E.
  apply (f_equal list_ascii_of_string) in E.
  rewrite !list_ascii_of_string_of_list_ascii in E.
  assert (E' : dumps false p ++ [] = dumps false p' ++ []) by (rewrite !app_nil_r; exact E).
  exact (proj1 (dumps_readable p p' [] [] E' I I)).
Qed.

(** ** The digest is 64 hex digits *)

Lemma round_length acc k :
  length (fst acc) = 8%nat -> length (fst (SHA256.round acc k)) = 8%nat.
Proof.
  destruct acc as [hs w]. simpl.
  do 9 (destruct hs as [|? hs]; try discriminate). intros _. reflexivity.
Qed.

Lemma rounds_length ks : forall acc,
  length (fst acc) = 8%nat -> length (fst (fold_left SHA256.round ks acc)) = 8%nat.
Proof.
  induction ks as [|k ks IH]; intros acc H; simpl; [exact H|].
  apply IH, round_length, H.
Qed.

Lemma compress_length hs block :
  length hs = 8%nat -> length (SHA256.compress hs block) = 8%nat.
Proof.
  intros H. unfold SHA256.compress.
  rewrite length_map, length_combine, H, rounds_length by exact H. reflexivity.
Qed.

Lemma blocks_length n : forall bs hs,
  length hs = 8%nat -> length (SHA256.blocks n bs hs) = 8%nat.
Proof.
  induction n as [|n IH]; intros bs hs H; simpl; [exact H|].
  apply IH, compress_length, H.
Qed.

Lemma hex_of_length n x : length (SHA256.hex_of n x) = n.
Proof. unfold SHA256.hex_of. rewrite length_map, length_rev, length_seq. reflexivity. Qed.

Lemma concat_hex_length ws :
  length (concat (map (SHA256.hex_of 8) ws)) = (8 * length ws)%nat.
Proof.
  induction ws as [|w ws IH]; [reflexivity|].
  cbn [map concat]. rewrite length_app, hex_of_length, IH. simpl. lia.
Qed.

Lemma string_of_list_ascii_length l :
  String.length (string_of_list_ascii l) = length l.
Proof. induction l as [|c l IH]; simpl; [reflexivity|rewrite IH; reflexivity]. Qed.

Lemma hexdigest_length msg : String.length (SHA256.hexdigest msg) = 64%nat.
Proof.
  unfold SHA256.hexdigest, SHA256.digest_words.
  rewrite string_of_list_ascii_length, concat_hex_length, blocks_length; reflexivity.
Qed.

(** ** C1 *)

(** C1, as stated, fails: on a started hub that knows no agent,
    [assign_task] for the id "ghost" returns [False] and appends no
    [task_assigned] event. *)
Lemma assign_unknown_audit_counterexample :
  AGENTS started !! KStr "ghost" = None /\
  assign_task "2026-01-01T00:00:00" (JStr "ghost") (JStr "x") started
  = (Returned false, started) /\
  ~ appended_one started
      (snd (assign_task "2026-01-01T00:00:00" (JStr "ghost") (JStr "x") started))
      "task_assigned" (JObj [("id", JStr "ghost"); ("task", JStr "x")]).
Proof.
  split; [reflexivity|]. split; [reflexivity|].
  intros (t & t' & r & Ht & Ht' & Hrows & _).
  vm_compute in Ht, Ht'. inversion Ht; subst t. inversion Ht'; subst t'.
  simpl in Hrows. discriminate.
Qed.

(** C1 (amended): when [assign_task] is called for an id that is not in
    the registry it returns [False] and leaves the whole state, the audit
    table included, as it was; for an id in the registry it appends
    exactly one [task_assigned] event with payload [{id, task}]. *)
Theorem assign_audits_only_on_success iso agent_id task st k
    (Hk : hash_key agent_id = Some k) :
  (AGENTS st !! k = None ->
     assign_task iso agent_id task st = (Returned false, st)) /\
  (forall t, is_Some (AGENTS st !! k) -> DB st = Some t ->
     fst (assign_task iso agent_id task st) = Returned true /\
     appended_one st (snd (assign_task iso agent_id task st)) "task_assigned"
       (JObj [("id", agent_id); ("task", task)])).
Proof.
  split.
  - intros Hn. exact (assign_task_unknown _ _ _ _ _ Hk Hn).
  - intros t [d Hd] Ht.
    rewrite (assign_task_known _ _ _ _ _ _ _ Hk Hd Ht). simpl.
    split; [reflexivity|].
    exists t. eexists. eexists. repeat split; [exact Ht|reflexivity..].
Qed.

Lemma assign_audits_only_on_success_witness :
  assign_task "2026-01-01T00:00:00" (JStr "ghost") (JStr "x") started
  = (Returned false, started) /\
  fst (assign_task "2026-01-01T00:00:01" (JStr "a1") (JStr "patrol") one_agent)
  = Returned true /\
  appended_one one_agent
    (snd (assign_task "2026-01-01T00:00:01" (JStr "a1") (JStr "patrol") one_agent))
    "task_assigned" (JObj [("id", JStr "a1"); ("task", JStr "patrol")]).
Proof.
  split.
  - apply (proj1 (assign_audits_only_on_success "2026-01-01T00:00:00"
                    (JStr "ghost") (JStr "x") started (KStr "ghost") eq_refl)).
    reflexivity.
  - apply (proj2 (assign_audits_only_on_success "2026-01-01T00:00:01"
                    (JStr "a1") (JStr "patrol") one_agent (KStr "a1") eq_refl)
             empty_table).
    + exists (new_agent (JObj [("role", JStr "scout")]) 0). reflexivity.
    + reflexivity.
Defined.

(** ** C2 *)

Lemma event_row_hash_ok t iso ty p op : row_hash_ok (event_row t iso ty p op).
Proof. exists p. split; reflexivity. Qed.

Lemma reachable_rows_hash_ok st t :
  reachable st -> DB st = Some t -> forall r, r ∈ rows t -> row_hash_ok r.
Proof.
  apply (reachable_table_invariant (fun t => forall r, r ∈ rows t -> row_hash_ok r)).
  - intros r Hr. simpl in Hr. inversion Hr.
  - intros t0 iso ty p op IH r Hr. simpl in Hr.
    apply elem_of_app in Hr as [Hr|Hr]; [exact (IH r Hr)|].
    apply list_elem_of_singleton in Hr as ->. apply event_row_hash_ok.
Qed.

(** C2: every row the program has stored carries a hash of 64 hex
    digits, its payload column is the serialisation of a payload, and
    for any payload that serialises to that column, SHA-256 over the
    key-sorted serialisation of [{ts, type, payload, operator}] is the
    stored hash. *)
Theorem stored_hash_recomputes st t r
    (Hr : reachable st) (Ht : DB st = Some t) (Hin : r ∈ rows t) :
  String.length (r_hash r) = 64%nat /\
  (exists p, r_payload r = json_dumps false p) /\
  (forall p, json_dumps false p = r_payload r -> recompute_hash r p = r_hash r).
Proof.
  destruct (reachable_rows_hash_ok st t Hr Ht r Hin) as (p & Hp & Hh).
  split; [rewrite Hh; apply hexdigest_length|].
  split; [exists p; exact Hp|].
  intros p' E. rewrite Hp in E. apply json_dumps_inj in E as ->.
  symmetry. exact Hh.
Qed.

Lemma stored_hash_recomputes_witness :
  String.length (r_hash demo_row) = 64%nat /\
  (exists p, r_payload demo_row = json_dumps false p) /\
  recompute_hash demo_row
    (JObj [("id", JStr "a1"); ("meta", JObj [("role", JStr "scout")])])
  = r_hash demo_row.
Proof.
  assert (Hin : demo_row ∈ rows demo_table).
  { unfold demo_table, table_after, demo_row. simpl. left. }
  assert (Hdb : DB demo_run = Some demo_table) by (vm_compute; reflexivity).
  destruct (stored_hash_recomputes demo_run demo_table demo_row
              demo_run_reachable Hdb Hin) as (H1 & H2 & H3).
  split; [exact H1|]. split; [exact H2|].
  exact (H3 (JObj [("id", JStr "a1"); ("meta", JObj [("role", JStr "scout")])])
            eq_refl).
Defined.

(** The hash [hashlib] gives for the record of a first registration. *)
Example content_hash_register :
  content_hash "2026-01-01T00:00:00.123456Z" "register_agent"
    (JObj [("id", JStr "a1"); ("meta", JObj [("role", JStr "scout")])]) "swarm-core"
  = "2479890b71059e420d789d43ffa1b61efc6f554167d4cdf33b5ac395809107e5".
Proof. vm_compute. reflexivity. Qed.

(** The payload column holds text.  Hashed as a string, instead of as
    the value it encodes, it gives another digest. *)
Example hash_over_column_text :
  content_hash (r_ts demo_row) (r_type demo_row) (JStr (r_payload demo_row))
    (r_operator demo_row)
  <> r_hash demo_row.
Proof. vm_compute. discriminate. Qed.

(** ** C3 *)

(** C3: [register_agent], whatever the registry held for the id before,
    leaves the entry [{meta, last_seen = now, status = "idle",
    task = None}] under the id and leaves every other entry alone; with
    the audit table in place it returns normally and has appended exactly
    one [register_agent] event with payload [{id, meta}]. *)
Theorem register_agent_spec now iso agent_id meta st k
    (Hk : hash_key agent_id = Some k) :
  let st' := snd (register_agent now iso agent_id meta st) in
  (exists d,
     AGENTS st' !! k = Some d /\
     d !! "meta" = Some (PJson meta) /\
     d !! "last_seen" = Some (PFloat now) /\
     d !! "status" = Some (PJson (JStr "idle")) /\
     d !! "task" = Some (PJson JNull) /\
     (forall f, is_Some (d !! f) ->
        f = "meta" \/ f = "last_seen" \/ f = "status" \/ f = "task")) /\
  (forall k', k' <> k -> AGENTS st' !! k' = AGENTS st !! k') /\
  (forall t, DB st = Some t ->
     fst (register_agent now iso agent_id meta st) = Returned tt /\
     appended_one st st' "register_agent" (JObj [("id", agent_id); ("meta", meta)])).
Proof.
  intros st'.
  assert (Ha : AGENTS st' = <[k := new_agent meta now]> (AGENTS st)).
  { unfold st'. rewrite register_agent_state, Hk. apply audit_agents. }
  split; [|split].
  - exists (new_agent meta now). rewrite Ha.
    split; [apply lookup_insert_eq|].
    do 4 (split; [reflexivity|]). apply new_agent_fields.
  - intros k' Hne. rewrite Ha. apply lookup_insert_ne. congruence.
  - intros t Ht. unfold st'.
    rewrite (register_agent_eq _ _ _ _ _ _ _ Hk Ht). simpl.
    split; [reflexivity|].
    exists t. eexists. eexists. repeat split; [exact Ht|reflexivity..].
Qed.

Lemma register_agent_spec_witness :
  let st' :=
    snd (register_agent 5 "2026-01-01T00:00:05" (JStr "a1") (JObj []) one_assigned) in
  (exists d,
     AGENTS st' !! KStr "a1" = Some d /\
     d !! "meta" = Some (PJson (JObj [])) /\
     d !! "last_seen" = Some (PFloat 5) /\
     d !! "status" = Some (PJson (JStr "idle")) /\
     d !! "task" = Some (PJson JNull) /\
     (forall f, is_Some (d !! f) ->
        f = "meta" \/ f = "last_seen" \/ f = "status" \/ f = "task")) /\
  (forall k', k' <> KStr "a1" -> AGENTS st' !! k' = AGENTS one_assigned !! k') /\
  fst (register_agent 5 "2026-01-01T00:00:05" (JStr "a1") (JObj []) one_assigned)
  = Returned tt /\
  appended_one one_assigned st' "register_agent"
    (JObj [("id", JStr "a1"); ("meta", JObj [])]).
Proof.
  intros st'.
  destruct (register_agent_spec 5 "2026-01-01T00:00:05" (JStr "a1") (JObj [])
              one_assigned (KStr "a1") eq_refl) as (H1 & H2 & H3).
  split; [exact H1|]. split; [exact H2|]. exact (H3 empty_table eq_refl).
Defined.

(** ** C4 *)

(** C4: [assign_task] for an id that is not in the registry returns
    [False] and changes nothing; for an id in the registry it sets that
    agent's status to "assigned" and its task to the given task, leaves
    its other fields and the other agents alone, and, with the audit
    table in place, returns [True]. *)
Theorem assign_task_spec iso agent_id task st k
    (Hk : hash_key agent_id = Some k) :
  (AGENTS st !! k = None ->
     assign_task iso agent_id task st = (Returned false, st)) /\
  (forall d, AGENTS st !! k = Some d ->
     let st' := snd (assign_task iso agent_id task st) in
     (exists d',
        AGENTS st' !! k = Some d' /\
        d' !! "status" = Some (PJson (JStr "assigned")) /\
        d' !! "task" = Some (PJson task) /\
        (forall f, f <> "status" -> f <> "task" -> d' !! f = d !! f)) /\
     (forall k', k' <> k -> AGENTS st' !! k' = AGENTS st !! k') /\
     (forall t, DB st = Some t ->
        fst (assign_task iso agent_id task st) = Returned true)).
Proof.
  split.
  - intros Hn. exact (assign_task_unknown _ _ _ _ _ Hk Hn).
  - intros d Hd st'.
    assert (Ha : AGENTS st'
                 = <[k := <["status" := PJson (JStr "assigned")]>
                            (<["task" := PJson task]> d)]> (AGENTS st)).
    { unfold st'. rewrite assign_task_state, Hk, Hd. apply audit_agents. }
    split; [|split].
    + eexists. rewrite Ha. split; [apply lookup_insert_eq|].
      split; [apply lookup_insert_eq|].
      split; [rewrite lookup_insert_ne by discriminate; apply lookup_insert_eq|].
      intros f H1 H2. rewrite !lookup_insert_ne by congruence. reflexivity.
    + intros k' Hne. rewrite Ha. apply lookup_insert_ne. congruence.
    + intros t Ht. rewrite (assign_task_known _ _ _ _ _ _ _ Hk Hd Ht). reflexivity.
Qed.

Lemma assign_task_spec_witness :
  assign_task "2026-01-01T00:00:00" (JStr "ghost") (JStr "x") one_agent
  = (Returned false, one_agent) /\
  let st' :=
    snd (assign_task "2026-01-01T00:00:00" (JStr "a1") (JStr "patrol") one_agent) in
  (exists d',
     AGENTS st' !! KStr "a1" = Some d' /\
     d' !! "status" = Some (PJson (JStr "assigned")) /\
     d' !! "task" = Some (PJson (JStr "patrol")) /\
     (forall f, f <> "status" -> f <> "task" ->
        d' !! f = new_agent (JObj [("role", JStr "scout")]) 0 !! f)) /\
  (forall k', k' <> KStr "a1" -> AGENTS st' !! k' = AGENTS one_agent !! k') /\
  fst (assign_task "2026-01-01T00:00:00" (JStr "a1") (JStr "patrol") one_agent)
  = Returned true.
Proof.
  split.
  - exact (proj1 (assign_task_spec "2026-01-01T00:00:00" (JStr "ghost") (JStr "x")
                    one_agent (KStr "ghost") eq_refl) eq_refl).
  - intros st'.
    destruct (proj2 (assign_task_spec "2026-01-01T00:00:00" (JStr "a1") (JStr "patrol")
                       one_agent (KStr "a1") eq_refl)
                (new_agent (JObj [("role", JStr "scout")]) 0) eq_refl)
      as (H1 & H2 & H3).
    split; [exact H1|]. split; [exact H2|]. exact (H3 empty_table eq_refl).
Defined.

(** ** C5 *)

(** C5: a heartbeat for an id that is not in the registry changes
    nothing, neither the registry nor the audit table, and the route
    answers [{"ok": true}]; for an id in the registry it sets that
    agent's [last_seen] to the current time and nothing else. *)
Theorem heartbeat_spec now agent_id st k
    (Hk : hash_key agent_id = Some k) :
  (AGENTS st !! k = None ->
     update_heartbeat now agent_id st = (Returned tt, st) /\
     forall body, dict_lookup "agent_id" body = Some agent_id ->
       truthy agent_id = true ->
       api_heartbeat now (JObj body) st = (Returned (ok_response true), st)) /\
  (forall d, AGENTS st !! k = Some d ->
     exists st' d',
       update_heartbeat now agent_id st = (Returned tt, st') /\
       DB st' = DB st /\
       AGENTS st' !! k = Some d' /\
       d' !! "last_seen" = Some (PFloat now) /\
       (forall f, f <> "last_seen" -> d' !! f = d !! f) /\
       (forall k', k' <> k -> AGENTS st' !! k' = AGENTS st !! k')).
Proof.
  split.
  - intros Hn. split; [exact (update_heartbeat_unknown _ _ _ _ Hk Hn)|].
    intros body Hb Htr. unfold api_heartbeat. run. rewrite Hb, Htr. simpl.
    rewrite (update_heartbeat_unknown _ _ _ _ Hk Hn). reflexivity.
  - intros d Hd. eexists. eexists.
    split; [exact (update_heartbeat_known _ _ _ _ _ Hk Hd)|]. simpl.
    split; [reflexivity|].
    split; [apply lookup_insert_eq|].
    split; [apply lookup_insert_eq|].
    split.
    + intros f Hf. apply lookup_insert_ne. congruence.
    + intros k' Hne. apply lookup_insert_ne. congruence.
Qed.

Lemma heartbeat_spec_witness :
  (update_heartbeat 7 (JStr "ghost") one_agent = (Returned tt, one_agent) /\
   api_heartbeat 7 (JObj [("agent_id", JStr "ghost")]) one_agent
   = (Returned (ok_response true), one_agent)) /\
  exists st' d',
    update_heartbeat 7 (JStr "a1") one_agent = (Returned tt, st') /\
    DB st' = DB one_agent /\
    AGENTS st' !! KStr "a1" = Some d' /\
    d' !! "last_seen" = Some (PFloat 7) /\
    (forall f, f <> "last_seen" ->
       d' !! f = new_agent (JObj [("role", JStr "scout")]) 0 !! f) /\
    (forall k', k' <> KStr "a1" -> AGENTS st' !! k' = AGENTS one_agent !! k').
Proof.
  split.
  - destruct (proj1 (heartbeat_spec 7 (JStr "ghost") one_agent (KStr "ghost") eq_refl)
                eq_refl) as [H1 H2].
    split; [exact H1|]. exact (H2 [("agent_id", JStr "ghost")] eq_refl eq_refl).
  - exact (proj2 (heartbeat_spec 7 (JStr "a1") one_agent (KStr "a1") eq_refl)
             (new_agent (JObj [("role", JStr "scout")]) 0) eq_refl).
Defined.

(** ** C6 *)

(** C6: along any run the audit table only grows at its end, since
    every call leaves the rows it found as a prefix of the rows it leaves,
    and the ids are 1, 2, 3, ... in the order of the appends, hence
    strictly increasing and without a gap. *)
Theorem audit_append_only_gapless st t
    (Hr : reachable st) (Ht : DB st = Some t) :
  (forall i r, rows t !! i = Some r -> r_id r = (Z.of_nat i + 1)%Z) /\
  (forall i j r r', (i < j)%nat -> rows t !! i = Some r -> rows t !! j = Some r' ->
     (r_id r < r_id r')%Z) /\
  (forall c, exists t' more,
     DB (exec c st) = Some t' /\ rows t' = rows t ++ more).
Proof.
  destruct (reachable_table_ok st t Hr Ht) as [Hg _].
  split; [exact Hg|]. split.
  - intros i j r r' Hij Hi Hj. rewrite (Hg _ _ Hi), (Hg _ _ Hj). lia.
  - intros c. exact (effect_extends _ _ (exec_effect c st) t Ht).
Qed.

Lemma audit_append_only_gapless_witness :
  (forall i r, rows demo_table !! i = Some r -> r_id r = (Z.of_nat i + 1)%Z) /\
  (forall i j r r', (i < j)%nat ->
     rows demo_table !! i = Some r -> rows demo_table !! j = Some r' ->
     (r_id r < r_id r')%Z) /\
  (forall c, exists t' more,
     DB (exec c demo_run) = Some t' /\ rows t' = rows demo_table ++ more).
Proof.
  apply (audit_append_only_gapless demo_run demo_table).
  - exact demo_run_reachable.
  - vm_compute. reflexivity.
Defined.

(** ** C7 *)

Global Instance newer_first_trans : Transitive newer_first.
Proof. intros a b c. unfold newer_first. lia. Qed.

Global Instance newer_first_total : Total newer_first.
Proof. intros a b. unfold newer_first. lia. Qed.

Lemma sorted_strict l :
  StronglySorted newer_first l -> NoDup (r_id <$> l) -> StronglySorted newer l.
Proof.
  induction 1 as [|x l Hs IH Hall]; intros Hnd; [constructor|].
  rewrite fmap_cons in Hnd. apply NoDup_cons in Hnd as [Hx Hnd].
  constructor; [exact (IH Hnd)|].
  rewrite Forall_forall in Hall |- *. intros y Hy.
  pose proof (Hall y Hy) as Hle. unfold newer_first in Hle. unfold newer.
  assert (r_id y <> r_id x).
  { intros E. apply Hx. rewrite <- E. apply list_elem_of_fmap_2. exact Hy. }
  lia.
Qed.

(** C7: whatever the audit table holds, with [n] rows of distinct ids,
    [api_audit] returns [min 50 n] of its rows, each a whole row
    [{id, ts, type, payload, operator, hash}], in strictly descending id
    order, and they are the newest: every row left out has a smaller id
    than every row returned.  The call changes nothing. *)
Theorem api_audit_newest_fifty st t
    (Ht : DB st = Some t) (Hpk : NoDup (r_id <$> rows t)) :
  exists res,
    api_audit st = (Returned res, st) /\
    length res = Nat.min 50 (length (rows t)) /\
    StronglySorted newer res /\
    (forall r, r ∈ res -> r ∈ rows t) /\
    (forall r r', r ∈ rows t -> r ∉ res -> r' ∈ res -> (r_id r < r_id r')%Z).
Proof.
  exists (take 50 (merge_sort newer_first (rows t))).
  pose proof (merge_sort_Permutation newer_first (rows t)) as Hperm.
  pose proof (StronglySorted_merge_sort newer_first (rows t)) as Hs.
  set (sorted := merge_sort newer_first (rows t)) in *.
  assert (Hnd : NoDup (r_id <$> sorted)) by (rewrite Hperm; exact Hpk).
  pose proof (sorted_strict _ Hs Hnd) as Hstrict.
  rewrite <- (take_drop 50 sorted) in Hstrict.
  split; [unfold api_audit; run; rewrite Ht; reflexivity|].
  split; [rewrite length_take, (Permutation_length Hperm); reflexivity|].
  split; [exact (StronglySorted_app_1_l _ _ _ Hstrict)|].
  split.
  - intros r Hr. rewrite <- Hperm, <- (take_drop 50 sorted).
    apply elem_of_app. left. exact Hr.
  - intros r r' Hr Hnot Hr'.
    rewrite <- Hperm, <- (take_drop 50 sorted) in Hr.
    apply elem_of_app in Hr as [Hr|Hr]; [contradiction|].
    exact (StronglySorted_app_1_elem_of _ _ _ _ _ Hstrict Hr' Hr).
Qed.

Lemma api_audit_newest_fifty_witness :
  exists res,
    api_audit demo_store = (Returned res, demo_store) /\
    length res = Nat.min 50 (length (rows demo_table)) /\
    StronglySorted newer res /\
    (forall r, r ∈ res -> r ∈ rows demo_table) /\
    (forall r r', r ∈ rows demo_table -> r ∉ res -> r' ∈ res -> (r_id r < r_id r')%Z).
Proof.
  apply (api_audit_newest_fifty demo_store demo_table).
  - reflexivity.
  - apply (bool_decide_unpack (NoDup (r_id <$> rows demo_table))).
    vm_compute. exact I.
Defined.

(** ** C8 *)

Lemma round_half_even_near x :
  (Qabs (inject_Z (round_half_even x) - x) <= 1 # 2)%Q.
Proof.
  unfold round_half_even.
  pose proof (Qfloor_le x) as Hlo. pose proof (Qlt_floor x) as Hhi.
  rewrite inject_Z_plus in Hhi. change (inject_Z 1) with 1%Q in Hhi.
  destruct (Qcompare_spec (x - inject_Z (Qfloor x)) (1 # 2)) as [E|L|G].
  - destruct (Z.even (Qfloor x));
      [|rewrite inject_Z_plus; change (inject_Z 1) with 1%Q];
      apply Qabs_case; intros _; lra.
  - apply Qabs_case; intros _; lra.
  - rewrite inject_Z_plus. change (inject_Z 1) with 1%Q.
    apply Qabs_case; intros _; lra.
Qed.

Lemma round1_near x : (Qabs (round1 x - x) <= 1 # 20)%Q.
Proof.
  unfold round1. pose proof (round_half_even_near (x * 10)) as H.
  revert H. generalize (inject_Z (round_half_even (x * 10))). intros q H.
  apply Qabs_Qle_condition in H. apply Qabs_Qle_condition.
  assert (Hd : (q / 10 == q * (1 # 10))%Q) by (unfold Qdiv; reflexivity).
  destruct H as [H1 H2]. split; rewrite Hd; lra.
Qed.

Lemma agent_view_dict now meta ls status task :
  agent_view now (agent_dict meta ls status task)
  = Returned (view_dict meta ls status task (round1 (now - ls))).
Proof.
  unfold agent_view, agent_dict.
  rewrite lookup_insert_ne by discriminate. rewrite lookup_insert_eq. reflexivity.
Qed.

Lemma omap_all_none {A B} (f : A -> option B) (l : list A) :
  (forall x, x ∈ l -> f x = None) -> omap f l = [].
Proof.
  induction l as [|x l IH]; intros H; [reflexivity|]. simpl.
  rewrite (H x) by left. apply IH. intros y Hy. apply H. right. exact Hy.
Qed.

Lemma list_agents_ok now st :
  registry_ok (AGENTS st) ->
  list_agents now st = (Returned (omap returned_of (agent_view now <$> AGENTS st)), st).
Proof.
  intros Hok. unfold list_agents. run.
  rewrite omap_all_none; [reflexivity|].
  intros [k v] Hkv. apply elem_of_map_to_list in Hkv.
  rewrite lookup_fmap in Hkv.
  destruct (AGENTS st !! k) as [d|] eqn:Hd; [|discriminate].
  simpl in Hkv. inversion Hkv; subst v.
  destruct (Hok _ _ Hd) as (m & ls & s & t & -> & _).
  rewrite agent_view_dict. reflexivity.
Qed.

(** C8, as stated, fails: the dict returned for "a1" also carries the
    stored [last_seen], which is not one of the four listed fields. *)
Lemma list_agents_fields_counterexample :
  exists m v,
    list_agents 1 one_agent = (Returned m, one_agent) /\
    m !! KStr "a1" = Some v /\
    ~ (forall f, is_Some (v !! f) <-> listed_field f).
Proof.
  exists {[ KStr "a1" := view_dict (JObj [("role", JStr "scout")]) 0 "idle" JNull
                           (round1 (1 - 0)) ]}.
  exists (view_dict (JObj [("role", JStr "scout")]) 0 "idle" JNull (round1 (1 - 0))).
  split; [vm_compute; reflexivity|].
  split; [reflexivity|].
  intros H. destruct (proj1 (H "last_seen")) as [E|[E|[E|E]]]; try discriminate E.
  eexists. reflexivity.
Qed.

(** C8 (amended): in every reachable state [list_agents] returns, for
    each registered id and for no other, the agent's stored fields
    [meta], [last_seen], [status] and [task] together with
    [last_seen_delta], the current time minus [last_seen] rounded to
    the nearest tenth; the call changes nothing. *)
Theorem list_agents_view now st (Hr : reachable st) :
  exists m,
    list_agents now st = (Returned m, st) /\
    forall k,
      (AGENTS st !! k = None -> m !! k = None) /\
      (forall d, AGENTS st !! k = Some d ->
         exists meta ls status task delta,
           d = agent_dict meta ls status task /\
           m !! k = Some (view_dict meta ls status task delta) /\
           delta = round1 (now - ls) /\
           (exists n : Z, delta = (inject_Z n / 10)%Q) /\
           (Qabs (delta - (now - ls)) <= 1 # 20)%Q).
Proof.
  pose proof (reachable_registry_ok st Hr) as Hok.
  eexists. split; [exact (list_agents_ok now st Hok)|].
  intros k. rewrite lookup_omap, lookup_fmap. split.
  - intros ->. reflexivity.
  - intros d Hd. rewrite Hd. simpl.
    destruct (Hok _ _ Hd) as (m & ls & s & t & -> & _).
    exists m, ls, s, t, (round1 (now - ls)).
    split; [reflexivity|].
    split; [rewrite agent_view_dict; reflexivity|].
    split; [reflexivity|].
    split; [eexists; reflexivity|apply round1_near].
Qed.

Lemma list_agents_view_witness :
  exists m,
    list_agents (123 # 100) demo_run = (Returned m, demo_run) /\
    m !! KStr "ghost" = None /\
    exists meta ls status task delta,
      AGENTS demo_run !! KStr "a1" = Some (agent_dict meta ls status task) /\
      m !! KStr "a1" = Some (view_dict meta ls status task delta) /\
      delta = round1 ((123 # 100) - ls) /\
      (exists n : Z, delta = (inject_Z n / 10)%Q) /\
      (Qabs (delta - ((123 # 100) - ls)) <= 1 # 20)%Q.
Proof.
  destruct (list_agents_view (123 # 100) demo_run demo_run_reachable) as (m & Hm & Hk).
  exists m. split; [exact Hm|].
  split; [apply (proj1 (Hk (KStr "ghost"))); vm_compute; reflexivity|].
  assert (Ha : AGENTS demo_run !! KStr "a1"
               = Some (agent_dict (JObj [("role", JStr "scout")]) 0 "assigned"
                         (JStr "patrol"))) by (vm_compute; reflexivity).
  destruct (proj2 (Hk (KStr "a1")) _ Ha) as (meta & ls & s & t & delta & E & H).
  exists meta, ls, s, t, delta. split; [rewrite Ha, E; reflexivity|exact H].
Defined.

(** ** C9 *)

(** C9: in every state reachable by calls of the program, an agent whose
    task is not [None] has status "assigned". *)
Theorem task_only_when_assigned st k d v
    (Hr : reachable st) (Hd : AGENTS st !! k = Some d)
    (Ht : d !! "task" = Some v) (Hv : v <> PJson JNull) :
  d !! "status" = Some (PJson (JStr "assigned")).
Proof.
  destruct (reachable_registry_ok st Hr k d Hd) as (m & ls & s & t & -> & Hs).
  unfold agent_dict in *.
  rewrite !lookup_insert_ne in Ht by discriminate.
  rewrite lookup_insert_eq in Ht. inversion Ht; subst v.
  rewrite !lookup_insert_ne by discriminate. rewrite lookup_insert_eq.
  destruct Hs as [->|[_ ->]]; [reflexivity|]. congruence.
Qed.

Lemma task_only_when_assigned_witness :
  agent_dict (JObj [("role", JStr "scout")]) 0 "assigned" (JStr "patrol") !! "status"
  = Some (PJson (JStr "assigned")).
Proof.
  apply (task_only_when_assigned demo_run (KStr "a1")
           (agent_dict (JObj [("role", JStr "scout")]) 0 "assigned" (JStr "patrol"))
           (PJson (JStr "patrol"))).
  - exact demo_run_reachable.
  - vm_compute. reflexivity.
  - reflexivity.
  - discriminate.
Defined.

(** ** C10 *)

(** C10: a request whose [agent_id] is present but falsy (and, for
    assign, whose [task] is present but falsy) gets the validation error
    that the same request without the field gets, and the state,
    registry and audit table, stays as it was. *)
Theorem falsy_field_rejected now iso body v st
    (Hv : truthy v = false) :
  (dict_lookup "agent_id" body = Some v ->
     api_register now iso (JObj body) st = (Returned missing_agent_id, st) /\
     api_register now iso (JObj (dict_remove "agent_id" body)) st
     = (Returned missing_agent_id, st) /\
     api_heartbeat now (JObj body) st = (Returned missing_agent_id, st) /\
     api_heartbeat now (JObj (dict_remove "agent_id" body)) st
     = (Returned missing_agent_id, st) /\
     api_assign iso (JObj body) st = (Returned missing_params, st) /\
     api_assign iso (JObj (dict_remove "agent_id" body)) st
     = (Returned missing_params, st)) /\
  (dict_lookup "task" body = Some v ->
     api_assign iso (JObj body) st = (Returned missing_params, st) /\
     api_assign iso (JObj (dict_remove "task" body)) st
     = (Returned missing_params, st)).
Proof.
  split; intros Hl.
  - unfold api_register, api_heartbeat, api_assign. run.
    rewrite Hl, Hv, !dict_lookup_remove. simpl. repeat split; reflexivity.
  - unfold api_assign. run.
    rewrite Hl, Hv, !dict_lookup_remove. simpl.
    rewrite !orb_true_r. split; reflexivity.
Qed.

Lemma falsy_field_rejected_witness :
  (api_register 3 "2026-01-01T00:00:03" (JObj [("agent_id", JStr ""); ("meta", JObj [])]) one_agent
   = (Returned missing_agent_id, one_agent) /\
   api_register 3 "2026-01-01T00:00:03"
     (JObj (dict_remove "agent_id" [("agent_id", JStr ""); ("meta", JObj [])])) one_agent
   = (Returned missing_agent_id, one_agent) /\
   api_heartbeat 3 (JObj [("agent_id", JStr ""); ("meta", JObj [])]) one_agent
   = (Returned missing_agent_id, one_agent) /\
   api_heartbeat 3
     (JObj (dict_remove "agent_id" [("agent_id", JStr ""); ("meta", JObj [])])) one_agent
   = (Returned missing_agent_id, one_agent) /\
   api_assign "2026-01-01T00:00:03" (JObj [("agent_id", JStr ""); ("meta", JObj [])]) one_agent
   = (Returned missing_params, one_agent) /\
   api_assign "2026-01-01T00:00:03"
     (JObj (dict_remove "agent_id" [("agent_id", JStr ""); ("meta", JObj [])])) one_agent
   = (Returned missing_params, one_agent)) /\
  (api_assign "2026-01-01T00:00:03" (JObj [("agent_id", JStr "a1"); ("task", JNum 0)]) one_agent
   = (Returned missing_params, one_agent) /\
   api_assign "2026-01-01T00:00:03"
     (JObj (dict_remove "task" [("agent_id", JStr "a1"); ("task", JNum 0)])) one_agent
   = (Returned missing_params, one_agent)).
Proof.
  split.
  - exact (proj1 (falsy_field_rejected 3 "2026-01-01T00:00:03"
                    [("agent_id", JStr ""); ("meta", JObj [])] (JStr "") one_agent eq_refl)
             eq_refl).
  - exact (proj2 (falsy_field_rejected 3 "2026-01-01T00:00:03"
                    [("agent_id", JStr "a1"); ("task", JNum 0)] (JNum 0) one_agent eq_refl)
             eq_refl).
Defined.

(** * Further properties of the program *)

(** ** Each call is one transition *)

Lemma audit_db iso ty p op st :
  snd (audit iso ty p op st)
  = {| AGENTS := AGENTS st;
       DB := match DB st with
             | Some t => Some (table_after t iso ty p op)
             | None => None
             end |}.
Proof.
  destruct (DB st) as [t|] eqn:E.
  - rewrite (audit_some _ _ _ _ _ _ E). reflexivity.
  - rewrite (audit_none _ _ _ _ _ E). destruct st; simpl in *. rewrite E. reflexivity.
Qed.

Lemma register_agent_transition now iso agent_id meta st :
  transition st (snd (register_agent now iso agent_id meta st)).
Proof.
  rewrite register_agent_state. destruct (hash_key agent_id) as [k|] eqn:Hk;
    [|apply tr_none].
  rewrite audit_db. simpl. exact (tr_register st k agent_id meta now iso Hk).
Qed.

Lemma update_heartbeat_transition now agent_id st :
  transition st (snd (update_heartbeat now agent_id st)).
Proof.
  rewrite update_heartbeat_state. destruct (hash_key agent_id); [|apply tr_none].
  destruct (AGENTS st !! k) eqn:E; [|apply tr_none].
  apply tr_heartbeat. exact E.
Qed.

Lemma assign_task_transition iso agent_id task st :
  transition st (snd (assign_task iso agent_id task st)).
Proof.
  rewrite assign_task_state. destruct (hash_key agent_id) as [k|] eqn:Hk;
    [|apply tr_none].
  destruct (AGENTS st !! k) as [d|] eqn:E; [|apply tr_none].
  rewrite audit_db. simpl. exact (tr_assign st k agent_id d task iso Hk E).
Qed.

Lemma exec_transition c st : registry_call c = true -> transition st (exec c st).
Proof.
  intros Hc. destruct c; simpl; try discriminate Hc.
  - apply register_agent_transition.
  - apply update_heartbeat_transition.
  - apply assign_task_transition.
  - rewrite list_agents_state. apply tr_none.
  - unfold api_register. run.
    destruct (data_get_cases data "agent_id" JNull st) as [[v ->]| ->]; [|apply tr_none].
    destruct (data_get_cases data "meta" (JObj []) st) as [[m ->]| ->]; [|apply tr_none].
    destruct (negb (truthy v)); [apply tr_none|].
    pose proof (register_agent_transition now iso v m st) as H.
    destruct (register_agent now iso v m st) as [[u|e] st']; exact H.
  - unfold api_heartbeat. run.
    destruct (data_get_cases data "agent_id" JNull st) as [[v ->]| ->]; [|apply tr_none].
    destruct (negb (truthy v)); [apply tr_none|].
    pose proof (update_heartbeat_transition now v st) as H.
    destruct (update_heartbeat now v st) as [[u|e] st']; exact H.
  - unfold api_assign. run.
    destruct (data_get_cases data "agent_id" JNull st) as [[v ->]| ->]; [|apply tr_none].
    destruct (data_get_cases data "task" JNull st) as [[w ->]| ->]; [|apply tr_none].
    destruct (negb (truthy v) || negb (truthy w)); [apply tr_none|].
    pose proof (assign_task_transition iso v w st) as H.
    destruct (assign_task iso v w st) as [[u|e] st']; exact H.
  - rewrite api_audit_state. apply tr_none.
Qed.

Lemma init_db_state st :
  snd (init_db st)
  = {| AGENTS := AGENTS st;
       DB := Some (match DB st with Some t => t | None => empty_table end) |}.
Proof. unfold init_db. run. destruct st as [a [t|]]; reflexivity. Qed.

(** ** Errors and edges *)

(** X1: [init_db] returns normally, leaves the registry alone, creates
    an empty [events] table when there is none and keeps the table, with
    all its events, when there is one; a second [init_db] changes
    nothing. *)
Theorem init_db_keeps_events st :
  let st' := snd (init_db st) in
  fst (init_db st) = Returned tt /\
  AGENTS st' = AGENTS st /\
  (DB st = None -> DB st' = Some empty_table) /\
  (forall t, DB st = Some t -> st' = st) /\
  init_db st' = (Returned tt, st').
Proof.
  unfold init_db. run. destruct st as [a [t|]]; simpl.
  - repeat split; try reflexivity. discriminate.
  - repeat split; try reflexivity. discriminate.
Qed.

(** X2: without an [events] table the audit write fails with
    [OperationalError], and nothing is rolled back: [register_agent] has
    already written the entry and [assign_task] has already changed the
    agent when the error comes; [audit] and [api_audit] themselves leave
    the state as it was. *)
Theorem missing_table_not_rolled_back now iso agent_id meta task st k
    (Hk : hash_key agent_id = Some k) (Hdb : DB st = None) :
  (forall ty p op, audit iso ty p op st = (Raised OperationalError, st)) /\
  api_audit st = (Raised OperationalError, st) /\
  register_agent now iso agent_id meta st
  = (Raised OperationalError, with_agents st (<[k := new_agent meta now]> (AGENTS st))) /\
  (forall d, AGENTS st !! k = Some d ->
     assign_task iso agent_id task st
     = (Raised OperationalError,
        with_agents st
          (<[k := <["status" := PJson (JStr "assigned")]> (<["task" := PJson task]> d)]>
             (AGENTS st)))).
Proof.
  split; [intros ty p op; exact (audit_none _ _ _ _ _ Hdb)|].
  split; [unfold api_audit; run; rewrite Hdb; reflexivity|].
  split.
  - unfold register_agent. run. rewrite (as_key_some _ _ _ Hk). simpl.
    rewrite audit_none by exact Hdb. reflexivity.
  - intros d Hd. unfold assign_task. run. rewrite (as_key_some _ _ _ Hk). simpl.
    rewrite Hd. rewrite audit_none by exact Hdb. reflexivity.
Qed.

Lemma missing_table_not_rolled_back_witness :
  audit "2026-01-01T00:00:09" "register_agent" (JObj []) "swarm-core" one_agent_no_table
  = (Raised OperationalError, one_agent_no_table) /\
  api_audit one_agent_no_table = (Raised OperationalError, one_agent_no_table) /\
  register_agent 9 "2026-01-01T00:00:09" (JStr "a2") (JObj []) one_agent_no_table
  = (Raised OperationalError,
     with_agents one_agent_no_table
       (<[KStr "a2" := new_agent (JObj []) 9]> (AGENTS one_agent_no_table))) /\
  assign_task "2026-01-01T00:00:09" (JStr "a1") (JStr "patrol") one_agent_no_table
  = (Raised OperationalError,
     with_agents one_agent_no_table
       (<[KStr "a1" := <["status" := PJson (JStr "assigned")]>
                         (<["task" := PJson (JStr "patrol")]>
                            (new_agent (JObj [("role", JStr "scout")]) 0))]>
          (AGENTS one_agent_no_table))).
Proof.
  destruct (missing_table_not_rolled_back 9 "2026-01-01T00:00:09" (JStr "a2") (JObj [])
              (JStr "x") one_agent_no_table (KStr "a2") eq_refl eq_refl)
    as (H1 & H2 & H3 & _).
  destruct (missing_table_not_rolled_back 9 "2026-01-01T00:00:09" (JStr "a1") (JObj [])
              (JStr "patrol") one_agent_no_table (KStr "a1") eq_refl eq_refl)
    as (_ & _ & _ & H4).
  split; [exact (H1 "register_agent" (JObj []) "swarm-core")|].
  split; [exact H2|]. split; [exact H3|].
  exact (H4 (new_agent (JObj [("role", JStr "scout")]) 0) eq_refl).
Defined.

(** X3: an [agent_id] that cannot be a dict key (a list or a dict)
    makes the three registry functions raise [TypeError] before anything
    is written, registry or audit table; through the routes, where such a
    value passes the [not agent_id] test when it is not empty, the same
    error comes out and the state is untouched. *)
Theorem unhashable_id_raises now iso agent_id meta task st
    (Hk : hash_key agent_id = None) :
  register_agent now iso agent_id meta st = (Raised TypeError, st) /\
  update_heartbeat now agent_id st = (Raised TypeError, st) /\
  assign_task iso agent_id task st = (Raised TypeError, st) /\
  (forall body, dict_lookup "agent_id" body = Some agent_id -> truthy agent_id = true ->
     api_register now iso (JObj body) st = (Raised TypeError, st) /\
     api_heartbeat now (JObj body) st = (Raised TypeError, st) /\
     (forall t, dict_lookup "task" body = Some t -> truthy t = true ->
        api_assign iso (JObj body) st = (Raised TypeError, st))).
Proof.
  assert (H1 : register_agent now iso agent_id meta st = (Raised TypeError, st)).
  { unfold register_agent. run. rewrite (as_key_none _ _ Hk). reflexivity. }
  assert (H2 : update_heartbeat now agent_id st = (Raised TypeError, st)).
  { unfold update_heartbeat. run. rewrite (as_key_none _ _ Hk). reflexivity. }
  assert (H3 : forall t, assign_task iso agent_id t st = (Raised TypeError, st)).
  { intros t. unfold assign_task. run. rewrite (as_key_none _ _ Hk). reflexivity. }
  split; [exact H1|]. split; [exact H2|]. split; [apply H3|].
  intros body Hb Htr. split; [|split].
  - unfold api_register, register_agent. run. rewrite Hb, Htr. simpl.
    rewrite (as_key_none _ _ Hk). reflexivity.
  - unfold api_heartbeat. run. rewrite Hb, Htr. simpl. rewrite H2. reflexivity.
  - intros t Ht Htt. unfold api_assign. run. rewrite Hb, Ht, Htr, Htt. simpl.
    rewrite H3. reflexivity.
Qed.

Lemma unhashable_id_raises_witness :
  register_agent 1 "2026-01-01T00:00:01" (JArr [JStr "a1"]) (JObj []) one_agent
  = (Raised TypeError, one_agent) /\
  update_heartbeat 1 (JArr [JStr "a1"]) one_agent = (Raised TypeError, one_agent) /\
  assign_task "2026-01-01T00:00:01" (JArr [JStr "a1"]) (JStr "patrol") one_agent
  = (Raised TypeError, one_agent) /\
  api_register 1 "2026-01-01T00:00:01"
    (JObj [("agent_id", JArr [JStr "a1"]); ("task", JStr "patrol")]) one_agent
  = (Raised TypeError, one_agent) /\
  api_heartbeat 1
    (JObj [("agent_id", JArr [JStr "a1"]); ("task", JStr "patrol")]) one_agent
  = (Raised TypeError, one_agent) /\
  api_assign "2026-01-01T00:00:01"
    (JObj [("agent_id", JArr [JStr "a1"]); ("task", JStr "patrol")]) one_agent
  = (Raised TypeError, one_agent).
Proof.
  destruct (unhashable_id_raises 1 "2026-01-01T00:00:01" (JArr [JStr "a1"]) (JObj [])
              (JStr "patrol") one_agent eq_refl) as (H1 & H2 & H3 & H4).
  destruct (H4 [("agent_id", JArr [JStr "a1"]); ("task", JStr "patrol")] eq_refl eq_refl)
    as (H5 & H6 & H7).
  repeat (split; [assumption|]). exact (H7 (JStr "patrol") eq_refl eq_refl).
Defined.

(** X4: a request body that is valid JSON but not an object (a list, a
    string, a number, [true], [null]) has no [get]: the three POST routes
    raise [AttributeError] and leave the state as it was. *)
Theorem non_object_body_raises now iso data st
    (Hd : forall d, data <> JObj d) :
  api_register now iso data st = (Raised AttributeError, st) /\
  api_heartbeat now data st = (Raised AttributeError, st) /\
  api_assign iso data st = (Raised AttributeError, st).
Proof.
  destruct data as [|b|n|s|l|d]; try (repeat split; reflexivity).
  exfalso. exact (Hd d eq_refl).
Qed.

Lemma non_object_body_raises_witness :
  api_register 1 "2026-01-01T00:00:01" (JArr [JStr "a1"]) one_agent
  = (Raised AttributeError, one_agent) /\
  api_heartbeat 1 (JArr [JStr "a1"]) one_agent = (Raised AttributeError, one_agent) /\
  api_assign "2026-01-01T00:00:01" (JArr [JStr "a1"]) one_agent
  = (Raised AttributeError, one_agent).
Proof.
  apply (non_object_body_raises 1 "2026-01-01T00:00:01" (JArr [JStr "a1"]) one_agent).
  intros d. discriminate.
Defined.

(** ** The audit record *)

(** X5: on a hub reached by calls of the program, [audit] returns the
    very hash it stores: the new row is the last one, its id is the
    number of events so far plus one, it holds the timestamp with "Z",
    the type, the serialised payload and the operator as given, and the
    64-digit content hash that the caller gets back. *)
Theorem audit_returns_stored_hash iso ty p op st t
    (Hr : reachable st) (Ht : DB st = Some t) :
  exists h,
    audit iso ty p op st
    = (Returned h,
       with_table st
         {| rows := rows t ++ [mkRow (Z.of_nat (length (rows t)) + 1) (iso +:+ "Z") ty
                                 (json_dumps false p) op h];
            last_rowid := Z.of_nat (length (rows t)) + 1 |}) /\
    h = content_hash (iso +:+ "Z") ty p op /\
    String.length h = 64%nat.
Proof.
  exists (content_hash (iso +:+ "Z") ty p op).
  split; [|split; [reflexivity|apply hexdigest_length]].
  rewrite (audit_some _ _ _ _ _ _ Ht). unfold table_after, event_row.
  rewrite (table_ok_next t (reachable_table_ok st t Hr Ht)). reflexivity.
Qed.

Lemma audit_returns_stored_hash_witness :
  exists h,
    audit "2026-01-01T00:00:03" "task_assigned" (JObj [("id", JStr "a1")]) "operator-7"
      demo_run
    = (Returned h,
       with_table demo_run
         {| rows := rows demo_table
                    ++ [mkRow (Z.of_nat (length (rows demo_table)) + 1)
                          ("2026-01-01T00:00:03" +:+ "Z") "task_assigned"
                          (json_dumps false (JObj [("id", JStr "a1")])) "operator-7" h];
            last_rowid := Z.of_nat (length (rows demo_table)) + 1 |}) /\
    h = content_hash ("2026-01-01T00:00:03" +:+ "Z") "task_assigned"
          (JObj [("id", JStr "a1")]) "operator-7" /\
    String.length h = 64%nat.
Proof.
  apply (audit_returns_stored_hash "2026-01-01T00:00:03" "task_assigned"
           (JObj [("id", JStr "a1")]) "operator-7" demo_run demo_table
           demo_run_reachable).
  vm_compute. reflexivity.
Defined.

(** X6: the payload column tells payloads apart: two events with
    different payloads never store the same payload text. *)
Theorem distinct_payloads_distinct_text t t' iso iso' ty ty' p p' op op'
    (Hp : p <> p') :
  r_payload (event_row t iso ty p op) <> r_payload (event_row t' iso' ty' p' op').
Proof. simpl. intros E. apply Hp. exact (json_dumps_inj p p' E). Qed.

Lemma distinct_payloads_distinct_text_witness :
  r_payload (event_row empty_table "2026-01-01T00:00:01" "task_assigned"
               (JObj [("id", JStr "a1"); ("task", JNum 1)]) "swarm-core")
  <> r_payload (event_row empty_table "2026-01-01T00:00:01" "task_assigned"
                  (JObj [("id", JStr "a1"); ("task", JStr "1")]) "swarm-core").
Proof.
  apply distinct_payloads_distinct_text. discriminate.
Defined.

(** *** Sorted keys *)

Lemma ascii_compare_refl x : Ascii.compare x x = Eq.
Proof. unfold Ascii.compare. apply N.compare_refl. Qed.

Lemma string_compare_lt_trans a : forall b c,
  String.compare a b = Lt -> String.compare b c = Lt -> String.compare a c = Lt.
Proof.
  induction a as [|x a IH]; intros [|y b] [|z c]; simpl; try easy.
  destruct (Ascii.compare x y) eqn:Exy; try discriminate;
    destruct (Ascii.compare y z) eqn:Eyz; try discriminate; intros H1 H2.
  - apply Ascii.compare_eq_iff in Exy, Eyz. subst.
    rewrite ascii_compare_refl. exact (IH _ _ H1 H2).
  - apply Ascii.compare_eq_iff in Exy. subst. rewrite Eyz. reflexivity.
  - apply Ascii.compare_eq_iff in Eyz. subst. rewrite Exy. reflexivity.
  - unfold Ascii.compare in *. rewrite N.compare_lt_iff in Exy, Eyz.
    assert (Hxz : (N_of_ascii x < N_of_ascii z)%N) by lia.
    apply N.compare_lt_iff in Hxz. rewrite Hxz. reflexivity.
Qed.

Lemma string_compare_refl a : String.compare a a = Eq.
Proof.
  induction a as [|x a IH]; simpl; [reflexivity|].
  rewrite ascii_compare_refl. exact IH.
Qed.

Lemma string_leb_cases a b :
  String.leb a b = true <-> String.compare a b = Lt \/ a = b.
Proof.
  unfold String.leb. split.
  - destruct (String.compare a b) eqn:E; intros H; try discriminate; auto.
    right. apply String.compare_eq_iff. exact E.
  - intros [H| ->]; [rewrite H; reflexivity|].
    rewrite string_compare_refl. reflexivity.
Qed.

Lemma string_leb_trans a b c :
  String.leb a b = true -> String.leb b c = true -> String.leb a c = true.
Proof.
  rewrite !string_leb_cases. intros [H1| ->] [H2| ->]; auto.
  left. exact (string_compare_lt_trans _ _ _ H1 H2).
Qed.

Global Instance key_le_trans {A} : Transitive (@key_le A).
Proof. intros a b c. apply string_leb_trans. Qed.

Lemma insert_item_perm {A} (x : string * A) l : insert_item x l ≡ₚ x :: l.
Proof.
  induction l as [|y l IH]; simpl; [reflexivity|].
  destruct (String.leb (fst x) (fst y)); [reflexivity|].
  rewrite IH. apply Permutation_swap.
Qed.

Lemma sort_items_perm {A} (l : list (string * A)) : sort_items l ≡ₚ l.
Proof.
  induction l as [|x l IH]; simpl; [reflexivity|].
  rewrite insert_item_perm, IH. reflexivity.
Qed.

Lemma insert_item_sorted {A} (x : string * A) l :
  Sorted key_le l -> Sorted key_le (insert_item x l).
Proof.
  induction 1 as [|y l Hs IH Hd]; simpl; [repeat constructor|].
  destruct (String.leb (fst x) (fst y)) eqn:E.
  - constructor; [constructor; assumption|]. constructor. exact E.
  - assert (Hyx : key_le y x).
    { unfold key_le. destruct (String.leb_total (fst x) (fst y)); congruence. }
    constructor; [exact IH|].
    destruct l as [|z l]; simpl; [constructor; exact Hyx|].
    destruct (String.leb (fst x) (fst z)); constructor; [exact Hyx|].
    inversion Hd; assumption.
Qed.

Lemma sort_items_sorted {A} (l : list (string * A)) : StronglySorted key_le (sort_items l).
Proof.
  apply Sorted_StronglySorted; [apply _|].
  induction l as [|x l IH]; simpl; [constructor|].
  apply insert_item_sorted, IH.
Qed.

Lemma same_key_same_item {A} (l : list (string * A)) x y :
  NoDup (map fst l) -> x ∈ l -> y ∈ l -> fst x = fst y -> x = y.
Proof.
  induction l as [|z l IH]; intros Hnd Hx Hy E; [inversion Hx|].
  simpl in Hnd. apply NoDup_cons in Hnd as [Hz Hnd].
  apply elem_of_cons in Hx as [->|Hx]; apply elem_of_cons in Hy as [->|Hy].
  - reflexivity.
  - exfalso. apply Hz. rewrite E. apply (list_elem_of_fmap_2 fst). exact Hy.
  - exfalso. apply Hz. rewrite <- E. apply (list_elem_of_fmap_2 fst). exact Hx.
  - exact (IH Hnd Hx Hy E).
Qed.

Lemma sort_items_order_free {A} (l l' : list (string * A)) :
  NoDup (map fst l) -> l ≡ₚ l' -> sort_items l = sort_items l'.
Proof.
  intros Hnd Hp.
  apply (StronglySorted_unique_strong key_le).
  - intros x y Hx Hy H1 H2.
    rewrite sort_items_perm in Hx. rewrite sort_items_perm, <- Hp in Hy.
    apply (same_key_same_item l); auto.
    apply String.leb_antisym; assumption.
  - apply sort_items_sorted.
  - apply sort_items_sorted.
  - rewrite !sort_items_perm. exact Hp.
Qed.

Lemma dumps_sorted_obj d :
  dumps true (JObj d)
  = "{"%char
      :: join_with comma_sp
           (map (fun kt => quote (fst kt) ++ colon_sp ++ snd kt)
              (sort_items (map (fun kv => (fst kv, dumps true (snd kv))) d)))
      ++ ["}"%char].
Proof. reflexivity. Qed.

(** X7: the content hash does not depend on the order in which the keys
    of the payload dict were inserted: two payloads with the same items
    in another order, the keys being distinct as in any dict, get the
    same hash. *)
Theorem hash_ignores_key_order ts ty d d' op
    (Hkeys : NoDup (map fst d)) (Hperm : d ≡ₚ d') :
  content_hash ts ty (JObj d) op = content_hash ts ty (JObj d') op.
Proof.
  assert (E : dumps true (JObj d) = dumps true (JObj d')).
  { rewrite !dumps_sorted_obj.
    rewrite (sort_items_order_free
               (map (fun kv => (fst kv, dumps true (snd kv))) d)
               (map (fun kv => (fst kv, dumps true (snd kv))) d')).
    - reflexivity.
    - rewrite map_map. simpl. exact Hkeys.
    - apply Permutation_map. exact Hperm. }
  unfold content_hash, json_dumps.
  rewrite (dumps_sorted_obj [("ts", JStr ts); ("type", JStr ty);
                             ("payload", JObj d); ("operator", JStr op)]).
  rewrite (dumps_sorted_obj [("ts", JStr ts); ("type", JStr ty);
                             ("payload", JObj d'); ("operator", JStr op)]).
  cbn [map fst snd]. rewrite E. reflexivity.
Qed.

Lemma hash_ignores_key_order_witness :
  content_hash "2026-01-01T00:00:01Z" "register_agent"
    (JObj [("id", JStr "a1"); ("meta", JObj [])]) "swarm-core"
  = content_hash "2026-01-01T00:00:01Z" "register_agent"
      (JObj [("meta", JObj []); ("id", JStr "a1")]) "swarm-core".
Proof.
  apply hash_ignores_key_order.
  - apply (bool_decide_unpack (NoDup (map fst [("id", JStr "a1"); ("meta", JObj [])]))).
    vm_compute. exact I.
  - apply Permutation_swap.
Defined.

(** *** Hex digits *)

Lemma hex_digit_lower d :
  (0 <= d < 16)%Z -> is_lower_hex (SHA256.hex_digit d) = true.
Proof.
  intros H. rewrite <- (Z2Nat.id d) by lia.
  assert (Hn : (Z.to_nat d < 16)%nat) by lia.
  revert Hn. generalize (Z.to_nat d). intros n Hn.
  do 16 (destruct n as [|n]; [reflexivity|]). lia.
Qed.

Lemma hex_of_lower n x :
  Forall (fun c => is_lower_hex c = true) (SHA256.hex_of n x).
Proof.
  unfold SHA256.hex_of. apply Forall_forall. intros c Hc.
  apply list_elem_of_fmap in Hc as (i & -> & _).
  apply hex_digit_lower.
  change 15%Z with (Z.ones 4). rewrite Z.land_ones by lia.
  apply Z.mod_pos_bound. reflexivity.
Qed.

Lemma hexdigest_lower msg :
  Forall (fun c => is_lower_hex c = true) (list_ascii_of_string (SHA256.hexdigest msg)).
Proof.
  unfold SHA256.hexdigest. rewrite list_ascii_of_string_of_list_ascii.
  induction (SHA256.digest_words _) as [|w ws IH]; [constructor|].
  cbn [map concat]. apply Forall_app. split; [apply hex_of_lower|exact IH].
Qed.

(** X8: every hash the program has stored is written with the digits
    0-9 and a-f only, in lower case. *)
Theorem stored_hash_lower_hex st t r
    (Hr : reachable st) (Ht : DB st = Some t) (Hin : r ∈ rows t) :
  Forall (fun c => is_lower_hex c = true) (list_ascii_of_string (r_hash r)).
Proof.
  destruct (reachable_rows_hash_ok st t Hr Ht r Hin) as (p & _ & ->).
  apply hexdigest_lower.
Qed.

Lemma stored_hash_lower_hex_witness :
  Forall (fun c => is_lower_hex c = true) (list_ascii_of_string (r_hash demo_row)).
Proof.
  apply (stored_hash_lower_hex demo_run demo_table demo_row demo_run_reachable).
  - vm_compute. reflexivity.
  - unfold demo_table, table_after, demo_row. simpl. left.
Defined.

(** ** The registry *)

(** X9: ids that are equal as dict keys name the same agent.  After
    [register_agent] under [a], [assign_task] under any [b] with the same
    key (the same id, or [true] for [1], [false] for [0]) returns [True];
    the entry then holds the metadata of the registration, its time,
    status "assigned" and the task, and the log has grown by the two
    events, in that order. *)
Theorem register_then_assign now iso iso' a b meta task st t k
    (Ha : hash_key a = Some k) (Hb : hash_key b = Some k) (Ht : DB st = Some t) :
  let st1 := snd (register_agent now iso a meta st) in
  let st2 := snd (assign_task iso' b task st1) in
  fst (assign_task iso' b task st1) = Returned true /\
  AGENTS st2 !! k = Some (agent_dict meta now "assigned" task) /\
  exists t2,
    DB st2 = Some t2 /\
    rows t2
    = rows t
      ++ [event_row t iso "register_agent" (JObj [("id", a); ("meta", meta)]) "swarm-core";
          event_row (table_after t iso "register_agent"
                       (JObj [("id", a); ("meta", meta)]) "swarm-core")
            iso' "task_assigned" (JObj [("id", b); ("task", task)]) "swarm-core"].
Proof.
  intros st1 st2. unfold st2, st1.
  rewrite (register_agent_eq _ _ _ _ _ _ _ Ha Ht). simpl.
  set (t1 := table_after t iso "register_agent" (JObj [("id", a); ("meta", meta)])
               "swarm-core").
  rewrite (assign_task_known iso' b task
             {| AGENTS := <[k := new_agent meta now]> (AGENTS st); DB := Some t1 |}
             k (new_agent meta now) t1 Hb (lookup_insert_eq _ _ _) eq_refl).
  simpl. split; [reflexivity|]. split.
  - rewrite lookup_insert_eq.
    change (new_agent meta now) with (agent_dict meta now "idle" JNull).
    rewrite agent_dict_assign. reflexivity.
  - eexists. split; [reflexivity|]. simpl. rewrite <- app_assoc. reflexivity.
Qed.

Lemma register_then_assign_witness :
  let st1 :=
    snd (register_agent 1 "2026-01-01T00:00:01" (JBool true) (JObj []) started) in
  let st2 := snd (assign_task "2026-01-01T00:00:02" (JNum 1) (JStr "patrol") st1) in
  fst (assign_task "2026-01-01T00:00:02" (JNum 1) (JStr "patrol") st1) = Returned true /\
  AGENTS st2 !! KInt 1 = Some (agent_dict (JObj []) 1 "assigned" (JStr "patrol")) /\
  exists t2,
    DB st2 = Some t2 /\
    rows t2
    = rows empty_table
      ++ [event_row empty_table "2026-01-01T00:00:01" "register_agent"
            (JObj [("id", JBool true); ("meta", JObj [])]) "swarm-core";
          event_row (table_after empty_table "2026-01-01T00:00:01" "register_agent"
                       (JObj [("id", JBool true); ("meta", JObj [])]) "swarm-core")
            "2026-01-01T00:00:02" "task_assigned"
            (JObj [("id", JNum 1); ("task", JStr "patrol")]) "swarm-core"].
Proof.
  exact (register_then_assign 1 "2026-01-01T00:00:01" "2026-01-01T00:00:02"
           (JBool true) (JNum 1) (JObj []) (JStr "patrol") started empty_table (KInt 1)
           eq_refl eq_refl eq_refl).
Defined.

Lemma transition_keeps_agents st st' k :
  transition st st' -> is_Some (AGENTS st !! k) -> is_Some (AGENTS st' !! k).
Proof.
  intros [] Hk; simpl; try exact Hk;
    (rewrite lookup_insert; case_decide; [eexists; reflexivity|exact Hk]).
Qed.

(** X10: no call removes an agent: whatever is registered before a
    call, of a function or of a route, with whatever arguments, is
    registered after it.  Only the end of the process empties the
    registry. *)
Theorem registered_stays_registered c st k
    (Hc : c <> Restart) (Hk : is_Some (AGENTS st !! k)) :
  is_Some (AGENTS (exec c st) !! k).
Proof.
  destruct (registry_call c) eqn:Hrc.
  - exact (transition_keeps_agents _ _ k (exec_transition c st Hrc) Hk).
  - destruct c; try discriminate Hrc; simpl.
    + rewrite init_db_state. exact Hk.
    + rewrite audit_db. exact Hk.
    + contradiction.
Qed.

Lemma registered_stays_registered_witness :
  is_Some (AGENTS (exec (Call_register_agent 4 "2026-01-01T00:00:04" (JStr "a2") JNull)
                     one_agent) !! KStr "a1").
Proof.
  apply registered_stays_registered.
  - discriminate.
  - exists (new_agent (JObj [("role", JStr "scout")]) 0). reflexivity.
Defined.

(** *** Rounding *)

Lemma round_half_even_bounds x :
  (Qfloor x <= round_half_even x <= Qfloor x + 1)%Z.
Proof.
  unfold round_half_even.
  destruct (Qcompare _ _); try destruct (Z.even _); lia.
Qed.

Lemma round_half_even_mono x y :
  (x <= y)%Q -> (round_half_even x <= round_half_even y)%Z.
Proof.
  intros Hxy. pose proof (Qfloor_resp_le _ _ Hxy) as Hf.
  destruct (Z.eq_dec (Qfloor x) (Qfloor y)) as [E|Hne].
  - unfold round_half_even. rewrite E.
    destruct (Qcompare_spec (x - inject_Z (Qfloor y)) (1 # 2));
      destruct (Qcompare_spec (y - inject_Z (Qfloor y)) (1 # 2));
      try destruct (Z.even (Qfloor y)); try lia; exfalso; lra.
  - pose proof (round_half_even_bounds x). pose proof (round_half_even_bounds y). lia.
Qed.

Lemma round1_mono x y : (x <= y)%Q -> (round1 x <= round1 y)%Q.
Proof.
  intros Hxy. unfold round1, Qdiv. apply Qmult_le_compat_r; [|discriminate].
  rewrite <- Zle_Qle. apply round_half_even_mono. lra.
Qed.

Lemma round1_zero x : (x == 0)%Q -> (round1 x == 0)%Q.
Proof.
  intros Hx. unfold round1.
  assert (E : round_half_even (x * 10) = 0%Z).
  { assert (H0 : (x * 10 == 0)%Q) by (rewrite Hx; reflexivity).
    unfold round_half_even. rewrite (Qfloor_comp _ _ H0).
    change (Qfloor 0) with 0%Z. change (inject_Z 0) with 0%Q.
    match goal with
    | |- context [Qcompare ?a ?b] => destruct (Qcompare_spec a b)
    end; try reflexivity; exfalso; lra. }
  rewrite E. reflexivity.
Qed.

Lemma list_agents_lookup now st k meta ls status task :
  registry_ok (AGENTS st) ->
  AGENTS st !! k = Some (agent_dict meta ls status task) ->
  exists m,
    list_agents now st = (Returned m, st) /\
    m !! k = Some (view_dict meta ls status task (round1 (now - ls))).
Proof.
  intros Hok Hk. eexists. split; [exact (list_agents_ok now st Hok)|].
  rewrite lookup_omap, lookup_fmap, Hk. simpl. rewrite agent_view_dict. reflexivity.
Qed.

(** X11: with no heartbeat in between, a later poll never shows a
    smaller [last_seen_delta]: for two calls of [list_agents] on the same
    state at times [now1 <= now2], every agent's delta in the first is at
    most its delta in the second. *)
Theorem last_seen_delta_monotone now1 now2 st
    (Hr : reachable st) (Hle : (now1 <= now2)%Q) :
  exists m1 m2,
    list_agents now1 st = (Returned m1, st) /\
    list_agents now2 st = (Returned m2, st) /\
    forall k, is_Some (AGENTS st !! k) ->
      exists v1 v2 d1 d2,
        m1 !! k = Some v1 /\ m2 !! k = Some v2 /\
        v1 !! "last_seen_delta" = Some (PFloat d1) /\
        v2 !! "last_seen_delta" = Some (PFloat d2) /\
        (d1 <= d2)%Q.
Proof.
  pose proof (reachable_registry_ok st Hr) as Hok.
  eexists. eexists.
  split; [exact (list_agents_ok now1 st Hok)|].
  split; [exact (list_agents_ok now2 st Hok)|].
  intros k [d Hd]. destruct (Hok _ _ Hd) as (m & ls & s & t & -> & _).
  exists (view_dict m ls s t (round1 (now1 - ls))),
         (view_dict m ls s t (round1 (now2 - ls))),
         (round1 (now1 - ls)), (round1 (now2 - ls)).
  rewrite !lookup_omap, !lookup_fmap, Hd. simpl. rewrite !agent_view_dict.
  repeat split; try reflexivity.
  apply round1_mono. lra.
Qed.

Lemma last_seen_delta_monotone_witness :
  exists m1 m2,
    list_agents (3 # 2) demo_run = (Returned m1, demo_run) /\
    list_agents (7 # 2) demo_run = (Returned m2, demo_run) /\
    exists v1 v2 d1 d2,
      m1 !! KStr "a1" = Some v1 /\ m2 !! KStr "a1" = Some v2 /\
      v1 !! "last_seen_delta" = Some (PFloat d1) /\
      v2 !! "last_seen_delta" = Some (PFloat d2) /\
      (d1 <= d2)%Q.
Proof.
  assert (Hle : (3 # 2 <= 7 # 2)%Q) by (vm_compute; discriminate).
  destruct (last_seen_delta_monotone (3 # 2) (7 # 2) demo_run demo_run_reachable Hle)
    as (m1 & m2 & H1 & H2 & H3).
  exists m1, m2. split; [exact H1|]. split; [exact H2|].
  apply H3. eexists. vm_compute. reflexivity.
Defined.

(** X12: a heartbeat resets the delta.  After [update_heartbeat] at time
    [now] for a registered agent, [list_agents] at time [now'] shows for
    it [last_seen_delta = round(now' - now, 1)], which is zero when the
    poll comes at the same clock reading. *)
Theorem heartbeat_resets_delta now now' agent_id st k d
    (Hr : reachable st) (Hk : hash_key agent_id = Some k)
    (Hd : AGENTS st !! k = Some d) :
  let st' := snd (update_heartbeat now agent_id st) in
  exists m v,
    list_agents now' st' = (Returned m, st') /\
    m !! k = Some v /\
    v !! "last_seen_delta" = Some (PFloat (round1 (now' - now))) /\
    v !! "last_seen" = Some (PFloat now) /\
    ((now' == now)%Q -> (round1 (now' - now) == 0)%Q).
Proof.
  intros st'.
  assert (Hr' : reachable st')
    by exact (reachable_exec (Call_update_heartbeat now agent_id) st Hr).
  pose proof (reachable_registry_ok st' Hr') as Hok'.
  destruct (reachable_registry_ok st Hr k d Hd) as (m0 & ls & s & t & -> & _).
  assert (Ha : AGENTS st' !! k = Some (agent_dict m0 now s t)).
  { unfold st'. rewrite (update_heartbeat_known _ _ _ _ _ Hk Hd). simpl.
    rewrite lookup_insert_eq, agent_dict_heartbeat. reflexivity. }
  destruct (list_agents_lookup now' st' k m0 now s t Hok' Ha) as (m & Hm & Hv).
  exists m, (view_dict m0 now s t (round1 (now' - now))).
  split; [exact Hm|]. split; [exact Hv|].
  split; [reflexivity|]. split; [reflexivity|].
  intros E. apply round1_zero. lra.
Qed.

Lemma heartbeat_resets_delta_witness :
  let st' := snd (update_heartbeat 9 (JStr "a1") demo_run) in
  exists m v,
    list_agents 9 st' = (Returned m, st') /\
    m !! KStr "a1" = Some v /\
    v !! "last_seen_delta" = Some (PFloat (round1 (9 - 9))) /\
    v !! "last_seen" = Some (PFloat 9) /\
    (round1 (9 - 9) == 0)%Q.
Proof.
  intros st'.
  assert (Ha : AGENTS demo_run !! KStr "a1"
               = Some (agent_dict (JObj [("role", JStr "scout")]) 0 "assigned"
                         (JStr "patrol"))) by (vm_compute; reflexivity).
  destruct (heartbeat_resets_delta 9 9 (JStr "a1") demo_run (KStr "a1") _
              demo_run_reachable eq_refl Ha) as (m & v & H1 & H2 & H3 & H4 & H5).
  exists m, v. repeat (split; [assumption|]). apply H5. reflexivity.
Defined.

(** ** The routes on well-formed requests *)

Lemma update_heartbeat_returns now agent_id st k :
  hash_key agent_id = Some k -> fst (update_heartbeat now agent_id st) = Returned tt.
Proof.
  intros Hk. unfold update_heartbeat. run. rewrite (as_key_some _ _ _ Hk). simpl.
  destruct (AGENTS st !! k); reflexivity.
Qed.

(** X13: with an [agent_id] that is truthy and can be a dict key, the
    heartbeat route always answers [{"ok": true}] with status 200, known
    agent or not; the assign route, given a truthy task, answers an
    unknown agent with [{"ok": false}], still status 200, and changes
    nothing, and a known one with [{"ok": true}] after [assign_task]. *)
Theorem routes_answer now iso body agent_id st k
    (Hid : dict_lookup "agent_id" body = Some agent_id)
    (Htr : truthy agent_id = true) (Hk : hash_key agent_id = Some k) :
  api_heartbeat now (JObj body) st
  = (Returned (JObj [("ok", JBool true)], 200%Z), snd (update_heartbeat now agent_id st)) /\
  (forall task, dict_lookup "task" body = Some task -> truthy task = true ->
     (AGENTS st !! k = None ->
        api_assign iso (JObj body) st
        = (Returned (JObj [("ok", JBool false)], 200%Z), st)) /\
     (forall t, is_Some (AGENTS st !! k) -> DB st = Some t ->
        api_assign iso (JObj body) st
        = (Returned (JObj [("ok", JBool true)], 200%Z),
           snd (assign_task iso agent_id task st)))).
Proof.
  split.
  - unfold api_heartbeat. run. rewrite Hid, Htr. simpl.
    pose proof (update_heartbeat_returns now agent_id st k Hk) as H.
    destruct (update_heartbeat now agent_id st) as [[u|e] st']; simpl in *;
      [reflexivity|discriminate].
  - intros task Ht Htt. split.
    + intros Hn. unfold api_assign. run. rewrite Hid, Ht, Htr, Htt. simpl.
      rewrite (assign_task_unknown _ _ _ _ _ Hk Hn). reflexivity.
    + intros t [d Hd] Hdb. unfold api_assign. run. rewrite Hid, Ht, Htr, Htt. simpl.
      rewrite (assign_task_known _ _ _ _ _ _ _ Hk Hd Hdb). reflexivity.
Qed.

Lemma routes_answer_witness :
  api_heartbeat 2 (JObj [("agent_id", JStr "ghost"); ("task", JStr "x")]) one_agent
  = (Returned (JObj [("ok", JBool true)], 200%Z),
     snd (update_heartbeat 2 (JStr "ghost") one_agent)) /\
  api_assign "2026-01-01T00:00:02" (JObj [("agent_id", JStr "ghost"); ("task", JStr "x")])
    one_agent
  = (Returned (JObj [("ok", JBool false)], 200%Z), one_agent) /\
  api_assign "2026-01-01T00:00:02" (JObj [("agent_id", JStr "a1"); ("task", JStr "x")])
    one_agent
  = (Returned (JObj [("ok", JBool true)], 200%Z),
     snd (assign_task "2026-01-01T00:00:02" (JStr "a1") (JStr "x") one_agent)).
Proof.
  destruct (routes_answer 2 "2026-01-01T00:00:02"
              [("agent_id", JStr "ghost"); ("task", JStr "x")] (JStr "ghost")
              one_agent (KStr "ghost") eq_refl eq_refl eq_refl) as [H1 H2].
  destruct (routes_answer 2 "2026-01-01T00:00:02"
              [("agent_id", JStr "a1"); ("task", JStr "x")] (JStr "a1")
              one_agent (KStr "a1") eq_refl eq_refl eq_refl) as [_ H3].
  split; [exact H1|]. split.
  - exact (proj1 (H2 (JStr "x") eq_refl eq_refl) eq_refl).
  - apply (proj2 (H3 (JStr "x") eq_refl eq_refl) empty_table); [|reflexivity].
    exists (new_agent (JObj [("role", JStr "scout")]) 0). reflexivity.
Defined.

(** X14: the register route does not validate [meta].  When the body
    has no "meta" the agent is registered with the empty dict; when it
    has one, whatever it is ([null], a number, a list), that value is
    stored as the agent's metadata and written into the event. *)
Theorem register_route_meta now iso body agent_id st k t
    (Hid : dict_lookup "agent_id" body = Some agent_id)
    (Htr : truthy agent_id = true) (Hk : hash_key agent_id = Some k)
    (Hdb : DB st = Some t) :
  let meta := match dict_lookup "meta" body with Some m => m | None => JObj [] end in
  exists st',
    api_register now iso (JObj body) st = (Returned (JObj [("ok", JBool true)], 200%Z), st') /\
    AGENTS st' !! k = Some (agent_dict meta now "idle" JNull) /\
    appended_one st st' "register_agent" (JObj [("id", agent_id); ("meta", meta)]).
Proof.
  intros meta. eexists. split.
  - unfold api_register. run. rewrite Hid, Htr. simpl.
    fold meta. rewrite (register_agent_eq _ _ _ _ _ _ _ Hk Hdb). reflexivity.
  - simpl. split; [apply lookup_insert_eq|].
    exists t. eexists. eexists. repeat split; [exact Hdb|reflexivity..].
Qed.

Lemma register_route_meta_witness :
  (exists st',
     api_register 3 "2026-01-01T00:00:03" (JObj [("agent_id", JStr "a2")]) started
     = (Returned (JObj [("ok", JBool true)], 200%Z), st') /\
     AGENTS st' !! KStr "a2" = Some (agent_dict (JObj []) 3 "idle" JNull) /\
     appended_one started st' "register_agent"
       (JObj [("id", JStr "a2"); ("meta", JObj [])])) /\
  (exists st',
     api_register 3 "2026-01-01T00:00:03"
       (JObj [("agent_id", JStr "a2"); ("meta", JNull)]) started
     = (Returned (JObj [("ok", JBool true)], 200%Z), st') /\
     AGENTS st' !! KStr "a2" = Some (agent_dict JNull 3 "idle" JNull) /\
     appended_one started st' "register_agent"
       (JObj [("id", JStr "a2"); ("meta", JNull)])).
Proof.
  split.
  - exact (register_route_meta 3 "2026-01-01T00:00:03" [("agent_id", JStr "a2")]
             (JStr "a2") started (KStr "a2") empty_table eq_refl eq_refl eq_refl eq_refl).
  - exact (register_route_meta 3 "2026-01-01T00:00:03"
             [("agent_id", JStr "a2"); ("meta", JNull)]
             (JStr "a2") started (KStr "a2") empty_table eq_refl eq_refl eq_refl eq_refl).
Defined.

(** ** What a call writes to the log *)

Lemma transition_db st st' t :
  transition st st' -> DB st = Some t ->
  DB st' = Some t \/
  exists iso ty p,
    DB st' = Some (table_after t iso ty p "swarm-core") /\
    (ty = "register_agent" \/ ty = "task_assigned").
Proof.
  intros [] Ht; simpl; try (left; exact Ht); rewrite Ht; simpl; right;
    eexists; eexists; eexists; (split; [reflexivity|auto]).
Qed.

(** X15: a call writes at most one event: it leaves the table as it
    found it or appends the row of one [audit].  Unless the call is
    [audit] itself, that row has operator "swarm-core" and type
    "register_agent" or "task_assigned". *)
Theorem call_appends_at_most_one_event c st t (Ht : DB st = Some t) :
  DB (exec c st) = Some t \/
  exists iso ty p op,
    DB (exec c st) = Some (table_after t iso ty p op) /\
    (c = Call_audit iso ty p op \/
     (op = "swarm-core" /\ (ty = "register_agent" \/ ty = "task_assigned"))).
Proof.
  destruct (registry_call c) eqn:Hrc.
  - destruct (transition_db _ _ t (exec_transition c st Hrc) Ht)
      as [H|(iso & ty & p & H & Hty)]; [left; exact H|].
    right. exists iso, ty, p, "swarm-core". auto.
  - destruct c; try discriminate Hrc; simpl.
    + left. rewrite init_db_state. simpl. rewrite Ht. reflexivity.
    + right. exists iso, evt_type, payload, operator.
      rewrite audit_db. simpl. rewrite Ht. auto.
    + left. exact Ht.
Qed.

Lemma call_appends_at_most_one_event_witness :
  DB (exec (Call_api_heartbeat 5 (JObj [("agent_id", JStr "a1")])) one_agent)
  = Some empty_table \/
  exists iso ty p op,
    DB (exec (Call_api_heartbeat 5 (JObj [("agent_id", JStr "a1")])) one_agent)
    = Some (table_after empty_table iso ty p op) /\
    (Call_api_heartbeat 5 (JObj [("agent_id", JStr "a1")]) = Call_audit iso ty p op \/
     (op = "swarm-core" /\ (ty = "register_agent" \/ ty = "task_assigned"))).
Proof.
  exact (call_appends_at_most_one_event
           (Call_api_heartbeat 5 (JObj [("agent_id", JStr "a1")])) one_agent empty_table
           eq_refl).
Defined.

(** ** A hub that ran [init_db] first *)

Lemma registration_logged_more l more k d :
  registration_logged l k d -> registration_logged (l ++ more) k d.
Proof.
  intros (r & a & m & Hr & H). exists r, a, m.
  split; [apply elem_of_app; left; exact Hr|exact H].
Qed.

Lemma assignment_logged_more l more k d :
  assignment_logged l k d -> assignment_logged (l ++ more) k d.
Proof.
  intros H Hs. destruct (H Hs) as (r & a & m & Hr & H').
  exists r, a, m. split; [apply elem_of_app; left; exact Hr|exact H'].
Qed.

Lemma backed_more_rows st t more n :
  DB st = Some t ->
  (forall k d, AGENTS st !! k = Some d ->
     registration_logged (rows t) k d /\ assignment_logged (rows t) k d) ->
  backed {| AGENTS := AGENTS st;
            DB := Some {| rows := rows t ++ more; last_rowid := n |} |}.
Proof.
  intros Ht H. eexists. split; [reflexivity|]. simpl.
  intros k d Hd. destruct (H k d Hd) as [H1 H2].
  split; [apply registration_logged_more|apply assignment_logged_more]; assumption.
Qed.

Lemma transition_backed st st' : transition st st' -> backed st -> backed st'.
Proof.
  intros Htr (t & Ht & Hb). destruct Htr as [st|st k a meta now iso Hk|st k d now Hd
                                             |st k a d task iso Hk Hd]; simpl.
  - exists t. auto.
  - rewrite Ht. simpl. eexists. split; [reflexivity|]. simpl.
    intros k' d' Hd'. rewrite lookup_insert in Hd'. case_decide as Hkk.
    + subst k'. inversion Hd'; subst d'. split.
      * exists (event_row t iso "register_agent" (JObj [("id", a); ("meta", meta)])
                  "swarm-core"), a, meta.
        split; [apply elem_of_app; right; left|]. repeat split. exact Hk.
      * intros Hs. discriminate Hs.
    + destruct (Hb _ _ Hd') as [Hreg Hasg].
      split; [apply registration_logged_more|apply assignment_logged_more]; assumption.
  - exists t. split; [exact Ht|]. simpl.
    intros k' d' Hd'. rewrite lookup_insert in Hd'. case_decide as Hkk.
    + subst k'. inversion Hd'; subst d'. destruct (Hb _ _ Hd) as [Hreg Hasg]. split.
      * destruct Hreg as (r & a & m & Hr & Hty & Hk & Hm & Hp).
        exists r, a, m. repeat split; try assumption.
        rewrite lookup_insert_ne by discriminate. exact Hm.
      * intros Hs. rewrite lookup_insert_ne in Hs by discriminate.
        destruct (Hasg Hs) as (r & a & m & Hr & Hty & Hk & Hm & Hp).
        exists r, a, m. repeat split; try assumption.
        rewrite lookup_insert_ne by discriminate. exact Hm.
    + exact (Hb _ _ Hd').
  - rewrite Ht. simpl. eexists. split; [reflexivity|]. simpl.
    intros k' d' Hd'. rewrite lookup_insert in Hd'. case_decide as Hkk.
    + subst k'. inversion Hd'; subst d'. destruct (Hb _ _ Hd) as [Hreg _]. split.
      * apply registration_logged_more.
        destruct Hreg as (r & a' & m & Hr & Hty & Hk' & Hm & Hp).
        exists r, a', m. repeat split; try assumption.
        rewrite !lookup_insert_ne by discriminate. exact Hm.
      * intros _.
        exists (event_row t iso "task_assigned" (JObj [("id", a); ("task", task)])
                  "swarm-core"), a, task.
        split; [apply elem_of_app; right; left|]. repeat split; [exact Hk|].
        rewrite lookup_insert_ne by discriminate. apply lookup_insert_eq.
    + destruct (Hb _ _ Hd') as [Hreg Hasg].
      split; [apply registration_logged_more|apply assignment_logged_more]; assumption.
Qed.

Lemma served_backed st : served st -> backed st.
Proof.
  induction 1 as [|c st Hs IH].
  - exists empty_table. split; [reflexivity|].
    intros k d Hd. simpl in Hd. rewrite lookup_empty in Hd. discriminate.
  - destruct (registry_call c) eqn:Hrc.
    + exact (transition_backed _ _ (exec_transition c st Hrc) IH).
    + destruct IH as (t & Ht & Hb). destruct c; try discriminate Hrc; simpl.
      * rewrite init_db_state, Ht. exists t. auto.
      * rewrite audit_db, Ht. apply (backed_more_rows st t); assumption.
      * exists t. split; [exact Ht|]. intros k d Hd. simpl in Hd.
        rewrite lookup_empty in Hd. discriminate.
Qed.

Lemma served_reachable st : served st -> reachable st.
Proof.
  induction 1 as [|c st Hs IH].
  - exact (reachable_exec Call_init_db fresh reachable_fresh).
  - apply reachable_exec. exact IH.
Qed.

Lemma served_demo_run : served demo_run.
Proof. unfold demo_run. do 2 apply served_exec. exact served_started. Qed.

(** X16: on a hub that ran [init_db] first, the three POST routes never
    raise for a body that is an object whose [agent_id], if it has one,
    is not a list or a dict: each of them returns a response. *)
Theorem served_routes_never_raise now iso body st
    (Hs : served st)
    (Hh : forall v, dict_lookup "agent_id" body = Some v -> is_Some (hash_key v)) :
  (exists r, fst (api_register now iso (JObj body) st) = Returned r) /\
  (exists r, fst (api_heartbeat now (JObj body) st) = Returned r) /\
  (exists r, fst (api_assign iso (JObj body) st) = Returned r).
Proof.
  destruct (served_backed st Hs) as (t & Ht & _).
  unfold api_register, api_heartbeat, api_assign. run.
  destruct (dict_lookup "agent_id" body) as [v|] eqn:Hv;
    [|repeat split; eexists; reflexivity].
  destruct (Hh v eq_refl) as [k Hk].
  destruct (truthy v) eqn:Htr; simpl; [|repeat split; eexists; reflexivity].
  split; [|split].
  - rewrite (register_agent_eq _ _ _ _ _ _ _ Hk Ht). eexists. reflexivity.
  - pose proof (update_heartbeat_returns now v st k Hk) as H.
    destruct (update_heartbeat now v st) as [[u|e] st']; simpl in *;
      [eexists; reflexivity|discriminate].
  - destruct (negb (truthy _)); [eexists; reflexivity|].
    destruct (AGENTS st !! k) as [d|] eqn:Hd.
    + rewrite (assign_task_known _ _ _ _ _ _ _ Hk Hd Ht). eexists. reflexivity.
    + rewrite (assign_task_unknown _ _ _ _ _ Hk Hd). eexists. reflexivity.
Qed.

Lemma served_routes_never_raise_witness :
  (exists r, fst (api_register 6 "2026-01-01T00:00:06"
                    (JObj [("agent_id", JNum 7); ("task", JArr [])]) demo_run) = Returned r) /\
  (exists r, fst (api_heartbeat 6
                    (JObj [("agent_id", JNum 7); ("task", JArr [])]) demo_run) = Returned r) /\
  (exists r, fst (api_assign "2026-01-01T00:00:06"
                    (JObj [("agent_id", JNum 7); ("task", JArr [])]) demo_run) = Returned r).
Proof.
  apply (served_routes_never_raise 6 "2026-01-01T00:00:06"
           [("agent_id", JNum 7); ("task", JArr [])] demo_run served_demo_run).
  intros v Hv. simpl in Hv. inversion Hv; subst v. exists (KInt 7). reflexivity.
Defined.

(** X17: on a hub that ran [init_db] first, every agent in the registry
    has its registration in the audit log: a [register_agent] event whose
    payload carries an id with the agent's key and the metadata the
    agent's entry holds now. *)
Theorem served_registration_logged st k d
    (Hs : served st) (Hd : AGENTS st !! k = Some d) :
  exists t r agent_id meta,
    DB st = Some t /\ r ∈ rows t /\
    r_type r = "register_agent" /\
    hash_key agent_id = Some k /\
    d !! "meta" = Some (PJson meta) /\
    r_payload r = json_dumps false (JObj [("id", agent_id); ("meta", meta)]).
Proof.
  destruct (served_backed st Hs) as (t & Ht & Hb).
  destruct (Hb k d Hd) as [(r & a & m & H) _].
  exists t, r, a, m. split; [exact Ht|exact H].
Qed.

Lemma served_registration_logged_witness :
  exists t r agent_id meta,
    DB demo_run = Some t /\ r ∈ rows t /\
    r_type r = "register_agent" /\
    hash_key agent_id = Some (KStr "a1") /\
    agent_dict (JObj [("role", JStr "scout")]) 0 "assigned" (JStr "patrol") !! "meta"
    = Some (PJson meta) /\
    r_payload r = json_dumps false (JObj [("id", agent_id); ("meta", meta)]).
Proof.
  apply (served_registration_logged demo_run (KStr "a1") _ served_demo_run).
  vm_compute. reflexivity.
Defined.

(** X18: on a hub that ran [init_db] first, every agent whose status is
    "assigned" has that assignment in the audit log: a [task_assigned]
    event whose payload carries an id with the agent's key and the task
    the agent's entry holds now. *)
Theorem served_assignment_logged st k d
    (Hs : served st) (Hd : AGENTS st !! k = Some d)
    (Ha : d !! "status" = Some (PJson (JStr "assigned"))) :
  exists t r agent_id task,
    DB st = Some t /\ r ∈ rows t /\
    r_type r = "task_assigned" /\
    hash_key agent_id = Some k /\
    d !! "task" = Some (PJson task) /\
    r_payload r = json_dumps false (JObj [("id", agent_id); ("task", task)]).
Proof.
  destruct (served_backed st Hs) as (t & Ht & Hb).
  destruct (Hb k d Hd) as [_ H]. destruct (H Ha) as (r & a & m & H').
  exists t, r, a, m. split; [exact Ht|exact H'].
Qed.

Lemma served_assignment_logged_witness :
  exists t r agent_id task,
    DB demo_run = Some t /\ r ∈ rows t /\
    r_type r = "task_assigned" /\
    hash_key agent_id = Some (KStr "a1") /\
    agent_dict (JObj [("role", JStr "scout")]) 0 "assigned" (JStr "patrol") !! "task"
    = Some (PJson task) /\
    r_payload r = json_dumps false (JObj [("id", agent_id); ("task", task)]).
Proof.
  apply (served_assignment_logged demo_run (KStr "a1") _ served_demo_run).
  - vm_compute. reflexivity.
  - reflexivity.
Defined.

(** ** The audit listing on a real log *)

Lemma elem_of_rev_iff {A} (x : A) (l : list A) : x ∈ rev l <-> x ∈ l.
Proof. rewrite <- (Permutation_rev l). reflexivity. Qed.

Lemma rev_sorted_by_index {A} (R : relation A) (l : list A) :
  (forall i j a b, (i < j)%nat -> l !! i = Some a -> l !! j = Some b -> R b a) ->
  StronglySorted R (rev l).
Proof.
  induction l as [|x l IH]; intros H; simpl; [constructor|].
  apply StronglySorted_app_2.
  - intros y z Hy Hz. apply list_elem_of_singleton in Hz as ->.
    apply (proj1 (elem_of_rev_iff _ _)) in Hy.
    apply list_elem_of_lookup in Hy as [j Hj].
    exact (H 0%nat (S j) x y ltac:(lia) eq_refl Hj).
  - apply IH. intros i j a b Hij Ha Hb.
    exact (H (S i) (S j) a b ltac:(lia) Ha Hb).
  - repeat constructor.
Qed.

Lemma gapless_same_id l a b :
  ids_gapless l -> a ∈ l -> b ∈ l -> r_id a = r_id b -> a = b.
Proof.
  intros Hg Ha Hb E.
  apply list_elem_of_lookup in Ha as [i Hi]. apply list_elem_of_lookup in Hb as [j Hj].
  rewrite (Hg _ _ Hi), (Hg _ _ Hj) in E.
  assert (i = j) by lia. subst j. congruence.
Qed.

Lemma gapless_sorted_is_rev l :
  ids_gapless l -> merge_sort newer_first l = rev l.
Proof.
  intros Hg. apply (StronglySorted_unique_strong newer_first).
  - intros a b Ha Hb H1 H2. unfold newer_first in *.
    rewrite merge_sort_Permutation in Ha. apply (proj1 (elem_of_rev_iff _ _)) in Hb.
    apply (gapless_same_id l); auto. lia.
  - apply StronglySorted_merge_sort; apply _.
  - apply rev_sorted_by_index. intros i j a b Hij Ha Hb. unfold newer_first.
    rewrite (Hg _ _ Ha), (Hg _ _ Hb). lia.
  - rewrite merge_sort_Permutation. apply Permutation_rev.
Qed.

(** X19: on a log written by the program, [api_audit] returns the last
    events appended, the latest first: the reverse of the table cut after
    50 rows.  It changes nothing. *)
Theorem api_audit_latest_first st t
    (Hr : reachable st) (Ht : DB st = Some t) :
  api_audit st = (Returned (take 50 (rev (rows t))), st).
Proof.
  unfold api_audit. run. rewrite Ht.
  rewrite (gapless_sorted_is_rev _ (proj1 (reachable_table_ok st t Hr Ht))).
  reflexivity.
Qed.

Lemma api_audit_latest_first_witness :
  api_audit demo_run = (Returned (take 50 (rev (rows demo_table))), demo_run).
Proof.
  apply (api_audit_latest_first demo_run demo_table demo_run_reachable).
  vm_compute. reflexivity.
Defined.

(** ** The text [json.dumps] writes is ASCII *)

Lemma escape_char_printable_b c : forallb printable (escape_char c) = true.
Proof. destruct c as [[] [] [] [] [] [] [] []]; reflexivity. Qed.

Lemma escape_char_printable c : Forall (fun x => printable x = true) (escape_char c).
Proof.
  apply Forall_forall. intros x Hx. apply list_elem_of_In in Hx.
  exact (proj1 (forallb_forall printable (escape_char c)) (escape_char_printable_b c) x Hx).
Qed.

Lemma quote_printable s : Forall (fun x => printable x = true) (quote s).
Proof.
  unfold quote. constructor; [reflexivity|]. apply Forall_app. split.
  - induction (list_ascii_of_string s) as [|c l IH]; simpl; [constructor|].
    apply Forall_app. split; [apply escape_char_printable|exact IH].
  - repeat constructor.
Qed.

Lemma udigits_printable d : Forall (fun x => printable x = true) (udigits d).
Proof.
  unfold udigits. induction d; simpl; constructor; try reflexivity; assumption.
Qed.

Lemma int_str_printable n : Forall (fun x => printable x = true) (int_str n).
Proof.
  unfold int_str. destruct (Z.to_int n) as [d|d]; simpl.
  - apply udigits_printable.
  - constructor; [reflexivity|apply udigits_printable].
Qed.

Lemma join_with_printable parts :
  Forall (Forall (fun x => printable x = true)) parts ->
  Forall (fun x => printable x = true) (join_with comma_sp parts).
Proof.
  induction 1 as [|p ps Hp Hps IH]; [constructor|].
  rewrite join_with_cons. apply Forall_app. split; [exact Hp|].
  clear IH. induction Hps as [|q qs Hq Hqs IH]; simpl; [constructor|].
  do 2 (constructor; [reflexivity|]). apply Forall_app. split; assumption.
Qed.

Lemma dumps_obj_items b d :
  dumps b (JObj d)
  = "{"%char
      :: join_with comma_sp
           (map (fun kt => quote (fst kt) ++ colon_sp ++ snd kt)
              (if b then sort_items (map (fun kv => (fst kv, dumps b (snd kv))) d)
               else map (fun kv => (fst kv, dumps b (snd kv))) d))
      ++ ["}"%char].
Proof. reflexivity. Qed.

Lemma dumps_printable b v : Forall (fun x => printable x = true) (dumps b v).
Proof.
  induction v as [|c|n|s|l IH|d IH] using json_nested_ind.
  - repeat constructor.
  - destruct c; repeat constructor.
  - apply int_str_printable.
  - apply quote_printable.
  - simpl. constructor; [reflexivity|]. apply Forall_app. split; [|repeat constructor].
    apply join_with_printable. apply Forall_map. exact IH.
  - rewrite dumps_obj_items.
    constructor; [reflexivity|]. apply Forall_app. split; [|repeat constructor].
    apply join_with_printable. apply Forall_map.
    assert (Hitems : Forall (fun kt : string * list ascii =>
                               Forall (fun x => printable x = true) (snd kt))
                       (map (fun kv => (fst kv, dumps b (snd kv))) d)).
    { apply Forall_map. exact IH. }
    assert (Hs : Forall (fun kt : string * list ascii =>
                           Forall (fun x => printable x = true) (snd kt))
                   (if b then sort_items (map (fun kv => (fst kv, dumps b (snd kv))) d)
                    else map (fun kv => (fst kv, dumps b (snd kv))) d)).
    { destruct b; [|exact Hitems]. rewrite sort_items_perm. exact Hitems. }
    eapply Forall_impl; [exact Hs|]. intros kt Hkt. cbn beta in *.
    apply Forall_app. split; [apply quote_printable|].
    apply Forall_app. split; [repeat constructor|exact Hkt].
Qed.

Lemma encode_printable l :
  Forall (fun x => printable x = true) l ->
  encode (string_of_list_ascii l) = map byte_of_ascii l.
Proof.
  unfold encode. rewrite list_ascii_of_string_of_list_ascii.
  induction 1 as [|c l Hc Hl IH]; [reflexivity|]. simpl. rewrite IH.
  unfold encode_char. unfold printable in Hc.
  apply andb_true_iff in Hc as [_ Hc]. apply N.leb_le in Hc.
  destruct (N.ltb_spec (N_of_ascii c) 128); [reflexivity|lia].
Qed.

(** X20: whatever characters the strings of a request contain, the text
    written for it is printable ASCII: every payload column stored by the
    program consists of characters from the space to the tilde, and the
    bytes that are hashed are the characters of the sorted text, one byte
    each. *)
Theorem stored_text_is_ascii st t r
    (Hr : reachable st) (Ht : DB st = Some t) (Hin : r ∈ rows t) :
  Forall (fun x => printable x = true) (list_ascii_of_string (r_payload r)) /\
  forall ts ty p op,
    encode (json_dumps true
              (JObj [("ts", JStr ts); ("type", JStr ty);
                     ("payload", p); ("operator", JStr op)]))
    = map byte_of_ascii
        (dumps true (JObj [("ts", JStr ts); ("type", JStr ty);
                           ("payload", p); ("operator", JStr op)])).
Proof.
  split.
  - destruct (reachable_rows_hash_ok st t Hr Ht r Hin) as (p & -> & _).
    unfold json_dumps. rewrite list_ascii_of_string_of_list_ascii.
    apply dumps_printable.
  - intros ts ty p op. apply encode_printable, dumps_printable.
Qed.

Lemma stored_text_is_ascii_witness :
  Forall (fun x => printable x = true) (list_ascii_of_string (r_payload demo_row)) /\
  forall ts ty p op,
    encode (json_dumps true
              (JObj [("ts", JStr ts); ("type", JStr ty);
                     ("payload", p); ("operator", JStr op)]))
    = map byte_of_ascii
        (dumps true (JObj [("ts", JStr ts); ("type", JStr ty);
                           ("payload", p); ("operator", JStr op)])).
Proof.
  apply (stored_text_is_ascii demo_run demo_table demo_row demo_run_reachable).
  - vm_compute. reflexivity.
  - unfold demo_table, table_after, demo_row. simpl. left.
Defined.
